(** * react-toastify: the dispatch core of [src/core/toast.ts]

    A shallow embedding of the module-level state of [toast.ts] (the
    container registry, the pending queue, the lazy-mount flag), of the
    values that flow through it (identifiers, option objects, container
    instances) and of the operations the module exports or registers on
    the event bus.

    Conventions.
    - A JavaScript value is a [jsval]; an options object is a finite map
      from property names to [jsval]; reading a missing property gives
      [JUndefined].
    - The module variables and the pieces of the host the code touches
      (event bus, timer queue, document body, console, randomness and
      clock) are the fields of one [state] record that every operation
      threads explicitly.
    - [Math.random] and [Date.now] are read from an oracle carried by the
      state, so that "a freshly generated identifier" is a value the
      statements can name. *)

From stdpp Require Import base strings list gmap pretty.

Local Open Scope string_scope.
Local Open Scope list_scope.

(** ** JavaScript values *)

(** A number other than NaN is carried as the string [Number::toString]
    gives for it (["42"], ["0.3"], ["1e+21"], ["Infinity"]): everything
    the module does with a number -- [typeof], [isNaN], truthiness,
    strict equality, use as a property key -- is a function of that
    string. Both zeros print as ["0"]. *)
Inductive num : Type :=
  | NaN
  | Num (repr : string).

(** The number of an integer in the safe range (below 2^53 in absolute
    value), where [Number::toString] is the decimal numeral. *)
Definition Int (z : Z) : num := Num (pretty z).

Inductive jsval : Type :=
  | JUndefined
  | JNull
  | JBool (b : bool)
  | JNum (n : num)
  | JStr (s : string)
  | JRef (r : nat)      (* an object, by reference *)
  | JFun (f : nat).     (* a function, by reference *)

#[global] Instance num_eq_dec : EqDecision num.
Proof. solve_decision. Defined.

#[global] Instance jsval_eq_dec : EqDecision jsval.
Proof. solve_decision. Defined.

(** ToBoolean. *)
Definition truthy (v : jsval) : bool :=
  match v with
  | JUndefined | JNull => false
  | JBool b => b
  | JNum NaN => false
  | JNum (Num s) => negb (String.eqb s "0")
  | JStr s => negb (String.eqb s "")
  | JRef _ | JFun _ => true
  end.

(** [a || b] *)
Definition js_or (a b : jsval) : jsval := if truthy a then a else b.

(** [a ?? b] -- not used by the source; the specification words the
    target identifier of [update] with it. *)
Definition js_nullish (a b : jsval) : jsval :=
  match a with
  | JUndefined | JNull => b
  | _ => a
  end.

(** [a === b] *)
Definition strict_eq (a b : jsval) : bool :=
  match a, b with
  | JNum NaN, _ | _, JNum NaN => false
  | _, _ => bool_decide (a = b)
  end.

Inductive jstype : Type :=
  | TUndefined | TObject | TBoolean | TNumber | TString | TFunction.

#[global] Instance jstype_eq_dec : EqDecision jstype.
Proof. solve_decision. Defined.

Definition typeof (v : jsval) : jstype :=
  match v with
  | JUndefined => TUndefined
  | JNull => TObject
  | JBool _ => TBoolean
  | JNum _ => TNumber
  | JStr _ => TString
  | JRef _ => TObject
  | JFun _ => TFunction
  end.

Definition isNaN (v : jsval) : bool :=
  match v with
  | JNum NaN => true
  | _ => false
  end.

(** ToPropertyKey, for [collection[toastId]]. *)
Definition to_property_key (v : jsval) : string :=
  match v with
  | JUndefined => "undefined"
  | JNull => "null"
  | JBool true => "true"
  | JBool false => "false"
  | JNum NaN => "NaN"
  | JNum (Num s) => s
  | JStr s => s
  | JRef _ => "[object Object]"
  | JFun f => "function"
  end.

(** ** Option objects *)

Abbreviation options := (gmap string jsval).

(** [o.k] *)
Definition get (o : options) (k : string) : jsval := default JUndefined (o !! k).

(** [{...a, ...b}]: the later spread wins. *)
Definition spread (a b : options) : options := b ∪ a.

(** ** Containers, queue entries, bus *)

(** A displayed toast as the container keeps it in [collection]. *)
Record toast_record : Type := mkToast {
  t_content : jsval;
  t_options : options
}.

(** A mounted [ToastContainer] instance, as far as this module reads it:
    its identity, [containerId], [collection] and [isToastActive].
    [collection] is a plain object; the field holds its own properties. *)
Record container : Type := mkContainer {
  c_ref : nat;
  containerId : jsval;
  collection : gmap string toast_record;
  isToastActive : jsval -> bool
}.

(** What a plain object inherits from [Object.prototype]. *)
Definition object_prototype_keys : list string :=
  ["constructor"; "hasOwnProperty"; "isPrototypeOf"; "propertyIsEnumerable";
   "toLocaleString"; "toString"; "valueOf"; "__proto__";
   "__defineGetter__"; "__defineSetter__"; "__lookupGetter__"; "__lookupSetter__"].

(** An inherited member as [update] sees it: neither a function of
    [Object.prototype] nor the prototype itself has a [content] or an
    [options] property, so both read as undefined, and spreading
    undefined adds nothing. *)
Definition inherited_member : toast_record := mkToast JUndefined ∅.

(** [container.collection[key]]: an own property first, an inherited one
    otherwise; [None] is undefined. *)
Definition read_collection (c : container) (key : string) : option toast_record :=
  match collection c !! key with
  | Some t => Some t
  | None =>
      if bool_decide (key ∈ object_prototype_keys) then Some inherited_member
      else None
  end.

Record queue_item : Type := mkItem {
  action : jsval;
  content : jsval;
  q_options : options
}.

(** The functions subscribed to the bus: the two handlers this module
    installs, and callbacks of other modules, by reference. *)
Inductive listener : Type :=
  | OnDidMount
  | OnWillUnmount
  | Callback (f : nat).

#[global] Instance listener_eq_dec : EqDecision listener.
Proof. solve_decision. Defined.

Inductive arg : Type :=
  | AVal (v : jsval)
  | AOpts (o : options).

(** One call of [eventManager.emit]: the action, the arguments, and the
    listeners it was handed to, in order. *)
Record emission : Type := mkEmission {
  em_action : jsval;
  em_args : list arg;
  em_receivers : list listener
}.

(** The constants of [../utils] the module reads. *)
Record utils : Type := mkUtils {
  ACTION_SHOW : jsval;
  ACTION_CLEAR : jsval;
  ACTION_DID_MOUNT : jsval;
  ACTION_WILL_UNMOUNT : jsval;
  TYPE_DEFAULT : jsval;
  canUseDom : bool
}.

Abbreviation node := nat.

(** ** State *)

Record state : Type := mkState {
  (* module variables of toast.ts *)
  containers : list (jsval * container);   (* a Map, in insertion order *)
  latestInstance : jsval;
  containerDomNode : option node;
  containerConfig : jsval;
  queue : list queue_item;
  lazy : bool;
  (* host *)
  listeners : list (jsval * listener);     (* eventManager, registration order *)
  emitted : list emission;                 (* log of emit calls *)
  timers : list (jsval * options);         (* pending setTimeout(.., 0) of update *)
  body : list node;                        (* children of document.body *)
  next_node : node;
  console : list (list jsval);             (* console.log lines *)
  entropy : nat -> string * string;        (* Math.random().toString(36), Date.now().toString(36) *)
  draws : nat
}.

Definition set_containers (st : state) (x : list (jsval * container)) : state :=
  mkState x (latestInstance st) (containerDomNode st) (containerConfig st) (queue st)
    (lazy st) (listeners st) (emitted st) (timers st) (body st) (next_node st)
    (console st) (entropy st) (draws st).

Definition set_latestInstance (st : state) (x : jsval) : state :=
  mkState (containers st) x (containerDomNode st) (containerConfig st) (queue st)
    (lazy st) (listeners st) (emitted st) (timers st) (body st) (next_node st)
    (console st) (entropy st) (draws st).

Definition set_containerDomNode (st : state) (x : option node) : state :=
  mkState (containers st) (latestInstance st) x (containerConfig st) (queue st)
    (lazy st) (listeners st) (emitted st) (timers st) (body st) (next_node st)
    (console st) (entropy st) (draws st).

Definition set_containerConfig (st : state) (x : jsval) : state :=
  mkState (containers st) (latestInstance st) (containerDomNode st) x (queue st)
    (lazy st) (listeners st) (emitted st) (timers st) (body st) (next_node st)
    (console st) (entropy st) (draws st).

Definition set_queue (st : state) (x : list queue_item) : state :=
  mkState (containers st) (latestInstance st) (containerDomNode st) (containerConfig st) x
    (lazy st) (listeners st) (emitted st) (timers st) (body st) (next_node st)
    (console st) (entropy st) (draws st).

Definition set_lazy (st : state) (x : bool) : state :=
  mkState (containers st) (latestInstance st) (containerDomNode st) (containerConfig st)
    (queue st) x (listeners st) (emitted st) (timers st) (body st) (next_node st)
    (console st) (entropy st) (draws st).

Definition set_listeners (st : state) (x : list (jsval * listener)) : state :=
  mkState (containers st) (latestInstance st) (containerDomNode st) (containerConfig st)
    (queue st) (lazy st) x (emitted st) (timers st) (body st) (next_node st)
    (console st) (entropy st) (draws st).

Definition set_emitted (st : state) (x : list emission) : state :=
  mkState (containers st) (latestInstance st) (containerDomNode st) (containerConfig st)
    (queue st) (lazy st) (listeners st) x (timers st) (body st) (next_node st)
    (console st) (entropy st) (draws st).

Definition set_timers (st : state) (x : list (jsval * options)) : state :=
  mkState (containers st) (latestInstance st) (containerDomNode st) (containerConfig st)
    (queue st) (lazy st) (listeners st) (emitted st) x (body st) (next_node st)
    (console st) (entropy st) (draws st).

Definition set_body (st : state) (x : list node) : state :=
  mkState (containers st) (latestInstance st) (containerDomNode st) (containerConfig st)
    (queue st) (lazy st) (listeners st) (emitted st) (timers st) x (next_node st)
    (console st) (entropy st) (draws st).

Definition set_next_node (st : state) (x : node) : state :=
  mkState (containers st) (latestInstance st) (containerDomNode st) (containerConfig st)
    (queue st) (lazy st) (listeners st) (emitted st) (timers st) (body st) x
    (console st) (entropy st) (draws st).

Definition set_console (st : state) (x : list (list jsval)) : state :=
  mkState (containers st) (latestInstance st) (containerDomNode st) (containerConfig st)
    (queue st) (lazy st) (listeners st) (emitted st) (timers st) (body st) (next_node st)
    x (entropy st) (draws st).

Definition set_draws (st : state) (x : nat) : state :=
  mkState (containers st) (latestInstance st) (containerDomNode st) (containerConfig st)
    (queue st) (lazy st) (listeners st) (emitted st) (timers st) (body st) (next_node st)
    (console st) (entropy st) x.

(** ** The [Map] holding the containers *)

Module JsMap.
Section JsMap.
Context {V : Type}.

Definition get (m : list (jsval * V)) (k : jsval) : option V :=
  snd <$> List.find (fun e => bool_decide (fst e = k)) m.

(** An existing key keeps its place; a new one goes last. *)
Fixpoint set (m : list (jsval * V)) (k : jsval) (v : V) : list (jsval * V) :=
  match m with
  | [] => [(k, v)]
  | (k', v') :: m' =>
      if bool_decide (k' = k) then (k, v) :: m' else (k', v') :: set m' k v
  end.

Definition delete (m : list (jsval * V)) (k : jsval) : list (jsval * V) :=
  filter (λ e, fst e ≠ k) m.

Definition size (m : list (jsval * V)) : nat := length m.
End JsMap.
End JsMap.

(** ** The module, over the constants of [../utils] *)

Inductive outcome : Type :=
  | Returned
  | Threw (e : string).

Section Model.
Variable U : utils.

(** *** Event bus *)

(** Modelled from the spec: [eventManager] lives in [../utils], which is
    not part of the sources at hand. Section 4.1: [on] registers a
    listener for an action, [off] removes one listener or all listeners
    of that action, [emit] hands the arguments to every listener
    registered for the action, in registration order. The listeners are
    functions of other modules; an [emit] is recorded with the listeners
    it reached, and what those listeners do in turn is not part of this
    module. *)
Definition receivers (st : state) (act : jsval) : list listener :=
  snd <$> List.filter (fun e => bool_decide (fst e = act)) (listeners st).

Definition bus_on (st : state) (act : jsval) (l : listener) : state :=
  set_listeners st (listeners st ++ [(act, l)]).

Definition bus_off (st : state) (act : jsval) (l : option listener) : state :=
  set_listeners st
    (List.filter
       (fun e => negb (bool_decide (fst e = act)
                       && match l with
                          | None => true
                          | Some l' => bool_decide (snd e = l')
                          end))
       (listeners st)).

Definition bus_emit (st : state) (act : jsval) (args : list arg) : state :=
  set_emitted st (emitted st ++ [mkEmission act args (receivers st act)]).

(** *** The document *)

Definition createElement (st : state) : node * state :=
  (next_node st, set_next_node st (S (next_node st))).

Definition appendChild (st : state) (n : node) : state :=
  set_body st (List.filter (fun m => negb (Nat.eqb m n)) (body st) ++ [n]).

Definition removeChild (st : state) (n : node) : state * outcome :=
  if bool_decide (n ∈ body st)
  then (set_body st (List.filter (fun m => negb (Nat.eqb m n)) (body st)), Returned)
  else (st, Threw "NotFoundError").

(** *** toast.ts *)

Definition isAnyContainerMounted (st : state) : bool :=
  Nat.ltb 0 (JsMap.size (containers st)).

Definition getContainer (st : state) (cid : jsval) : option container :=
  if negb (isAnyContainerMounted st) then None
  else if negb (truthy cid) then JsMap.get (containers st) (latestInstance st)
  else JsMap.get (containers st) cid.

Definition getToast (st : state) (toastId : jsval) (opts : options)
  : option toast_record :=
  match getContainer st (get opts "containerId") with
  | None => None
  | Some c => read_collection c (to_property_key toastId)
  end.

Definition generateToastId (st : state) : jsval * state :=
  let '(r, d) := entropy st (draws st) in
  (JStr (String.substring 2 10 (String.append r d)), set_draws st (S (draws st))).

Definition getToastId (st : state) (opts : option options) : jsval * state :=
  match opts with
  | Some o =>
      let id := get o "toastId" in
      if bool_decide (typeof id = TString)
         || (bool_decide (typeof id = TNumber) && negb (isNaN id))
      then (id, st)
      else generateToastId st
  | None => generateToastId st
  end.

Definition mergeOptions (st : state) (opts : option options) (type : jsval)
  : options * state :=
  let '(id, st1) := getToastId st opts in
  (<["toastId" := id]> (<["type" := type]> (spread ∅ (default ∅ opts))), st1).

Definition dispatchToast (st : state) (content : jsval) (opts : options)
  : jsval * state :=
  let st' :=
    if isAnyContainerMounted st then
      bus_emit st (JStr "show") [AVal content; AOpts opts]
    else
      let st1 := set_queue st (queue st ++ [mkItem (JStr "show") content opts]) in
      if lazy st1 && canUseDom U then
        let st2 := set_lazy st1 false in
        let '(n, st3) := createElement st2 in
        let st4 := set_containerDomNode st3 (Some n) in
        appendChild st4 n
      else st1
  in
  (get opts "toastId", st').

(** The body shared by [toast] and by every type shortcut:
    [dispatchToast(content, mergeOptions(options, (options && options.type) || ty))],
    with [ty] the entry of [TYPE] the function was created for. Absent
    options are [None]. *)
Definition toast_as (ty : jsval) (st : state) (content : jsval)
    (opts : option options) : jsval * state :=
  let requested :=
    match opts with
    | Some o => get o "type"
    | None => JUndefined
    end in
  let '(merged, st1) := mergeOptions st opts (js_or requested ty) in
  dispatchToast st1 content merged.

Definition toast : state -> jsval -> option options -> jsval * state :=
  toast_as (TYPE_DEFAULT U).

Definition dismiss (st : state) (id : jsval) : state :=
  if isAnyContainerMounted st then bus_emit st (JStr "clear") [AVal id] else st.

(** Each turn of the [forEach] also writes the registry to the console. *)
Definition isActive (st : state) (id : jsval) : bool * state :=
  if Nat.ltb 0 (JsMap.size (containers st)) then
    fold_left
      (fun acc e =>
         let st1 := set_console (snd acc) (console (snd acc) ++ [fst <$> containers st]) in
         (if isToastActive (snd e) id then true else fst acc, st1))
      (containers st) (false, st)
  else (false, st).

(** The first half of the function [update] hands to [setTimeout]: the
    lookup of the displayed toast and the construction of the content
    and options that go to [dispatchToast]. [None] is the branch in
    which [if (toast)] fails. *)
Definition update_request (st : state) (toastId : jsval) (opts : options)
  : option (jsval * options * state) :=
  match getToast st toastId opts with
  | None => None
  | Some t =>
      let oldOptions := t_options t in
      let oldContent := t_content t in
      let nextOptions :=
        <["toastId" := js_or (get opts "toastId") toastId]>
          (spread (spread ∅ oldOptions) opts) in
      let '(nextOptions1, st1) :=
        if negb (truthy (get opts "toastId")) || strict_eq (get opts "toastId") toastId
        then
          let '(uid, st1) := generateToastId st in
          (<["updateId" := uid]> nextOptions, st1)
        else (<["staleToastId" := toastId]> nextOptions, st) in
      let content :=
        if negb (bool_decide (typeof (get nextOptions1 "render") = TUndefined))
        then get nextOptions1 "render"
        else oldContent in
      let nextOptions2 := delete "render" nextOptions1 in
      Some (content, nextOptions2, st1)
  end.

(** The whole deferred function. *)
Definition update_callback (st : state) (toastId : jsval) (opts : options) : state :=
  match update_request st toastId opts with
  | None => st
  | Some (content, nextOptions, st1) => snd (dispatchToast st1 content nextOptions)
  end.

Definition update (st : state) (toastId : jsval) (opts : options) : state :=
  set_timers st (timers st ++ [(toastId, opts)]).

(** One turn of the timer queue: the oldest pending callback runs. *)
Definition tick (st : state) : state :=
  match timers st with
  | [] => st
  | (toastId, opts) :: rest => update_callback (set_timers st rest) toastId opts
  end.

Definition done (st : state) (id : jsval) : state :=
  update st id {["progress" := JNum (Int 1)]}.

Definition onChange (st : state) (callback : jsval) : state :=
  match callback with
  | JFun f => bus_on st (JStr "change") (Callback f)
  | _ => st
  end.

Definition configure (st : state) (config : jsval) : state :=
  set_containerConfig (set_lazy st true) config.

(** [containerInstance.containerId || containerInstance]: the key of a
    container in the registry. *)
Definition container_key (c : container) : jsval :=
  js_or (containerId c) (JRef (c_ref c)).

(** The listener of [ACTION.DID_MOUNT]. *)
Definition did_mount (st : state) (inst : container) : state :=
  let st1 := set_latestInstance st (container_key inst) in
  let st2 := set_containers st1 (JsMap.set (containers st1) (latestInstance st1) inst) in
  let st3 :=
    fold_left
      (fun s item => bus_emit s (action item) [AVal (content item); AOpts (q_options item)])
      (queue st2) st2 in
  set_queue st3 [].

(** The listener of [ACTION.WILL_UNMOUNT]; the instance may be absent. *)
Definition will_unmount (st : state) (inst : option container) : state * outcome :=
  let st1 :=
    match inst with
    | Some c => set_containers st (JsMap.delete (containers st) (container_key c))
    | None => set_containers st []
    end in
  let st2 :=
    if Nat.eqb (JsMap.size (containers st1)) 0
    then bus_off (bus_off st1 (ACTION_SHOW U) None) (ACTION_CLEAR U) None
    else st1 in
  match canUseDom U, containerDomNode st2 with
  | true, Some n => removeChild st2 n
  | _, _ => (st2, Returned)
  end.

(** The state once the module has been evaluated. *)
Definition initial (rnd : nat -> string * string) : state :=
  {| containers := [];
     latestInstance := JNull;
     containerDomNode := None;
     containerConfig := JRef 0;
     queue := [];
     lazy := false;
     listeners := [(ACTION_DID_MOUNT U, OnDidMount); (ACTION_WILL_UNMOUNT U, OnWillUnmount)];
     emitted := [];
     timers := [];
     body := [];
     next_node := 0;
     console := [];
     entropy := rnd;
     draws := 0 |}.

End Model.

(** ** Sequences of calls *)

Section Runs.
Variable U : utils.

(** A call of [toast] or of one of its type shortcuts: the type the
    entry point falls back to ([TYPE.DEFAULT] for [toast] itself), the
    content and the options. *)
Record show_call : Type := mkCall {
  sc_type : jsval;
  sc_content : jsval;
  sc_options : option options
}.

(** A sequence of such calls: the identifiers returned, in call
    order, and the final state. *)
Fixpoint show_all (st : state) (calls : list show_call) : list jsval * state :=
  match calls with
  | [] => ([], st)
  | call :: rest =>
      let '(id, st1) := toast_as U (sc_type call) st (sc_content call) (sc_options call) in
      let '(ids, st2) := show_all st1 rest in
      (id :: ids, st2)
  end.

(** A container subscribing its listeners, one [on] call each. *)
Definition subscribe_all (st : state) (subs : list (jsval * listener)) : state :=
  fold_left (fun s e => bus_on s (fst e) (snd e)) subs st.

(** What a call leaves in the queue, given the identifier it returned. *)
Definition entry_of (call : show_call) (id : jsval) : queue_item :=
  let requested :=
    match sc_options call with
    | Some o => get o "type"
    | None => JUndefined
    end in
  mkItem (JStr "show") (sc_content call)
    (<["toastId" := id]>
       (<["type" := js_or requested (sc_type call)]> (default ∅ (sc_options call)))).

(** The operations the module offers, and the events the host feeds
    it: the two bus handlers and the firing of a deferred update. *)
Inductive op : Type :=
  | OpToast (ty : jsval) (c : jsval) (o : option options)
  | OpDismiss (id : jsval)
  | OpIsActive (id : jsval)
  | OpUpdate (id : jsval) (o : options)
  | OpDone (id : jsval)
  | OpOnChange (cb : jsval)
  | OpConfigure (cfg : jsval)
  | OpTick
  | OpDidMount (c : container)
  | OpWillUnmount (c : option container).

Definition run_op (st : state) (o : op) : state :=
  match o with
  | OpToast ty c opts => snd (toast_as U ty st c opts)
  | OpDismiss id => dismiss st id
  | OpIsActive id => snd (isActive st id)
  | OpUpdate id opts => update st id opts
  | OpDone id => done st id
  | OpOnChange cb => onChange st cb
  | OpConfigure cfg => configure st cfg
  | OpTick => tick U st
  | OpDidMount c => did_mount st c
  | OpWillUnmount c => fst (will_unmount U st c)
  end.

Definition run_ops (st : state) (os : list op) : state := fold_left run_op os st.

(** The queue holds entries only while no container is registered. *)
Definition queue_inv (st : state) : Prop :=
  containers st ≠ [] → queue st = [].

End Runs.

(** ** The wording of the specification, where it departs from the code *)

(** [resolve]: "the caller-supplied value if it is a non-empty string or
    a well-formed number". *)
Definition well_formed_id (v : jsval) : bool :=
  match v with
  | JStr s => negb (String.eqb s "")
  | JNum (Num _) => true
  | _ => false
  end.

Definition supplied_id (o : option options) : jsval :=
  match o with
  | Some o' => get o' "toastId"
  | None => JUndefined
  end.

(** What [getToastId] accepts: any string, and any number but [NaN]. *)
Definition accepted_id (v : jsval) : bool :=
  match v with
  | JStr _ => true
  | JNum (Num _) => true
  | _ => false
  end.

(** "returns the supplied identifier when it is a non-empty string or a
    well-formed number, and otherwise a freshly generated one". *)
Definition resolves_as_worded (U : utils) (st : state) (c : jsval)
    (o : option options) : Prop :=
  fst (toast U st c o) =
    if well_formed_id (supplied_id o) then supplied_id o
    else fst (generateToastId st).

(** "the effective target is [options.toastId ?? id]; on equality with
    the original the options carry a fresh [updateId] and no
    [staleToastId]; otherwise [staleToastId] is the original and the
    record goes out under the new identifier". *)
Definition update_as_worded (st : state) (id : jsval) (o : options) : Prop :=
  ∀ c o' st1,
    update_request st id o = Some (c, o', st1) →
    let target := js_nullish (get o "toastId") id in
    if bool_decide (target = id)
    then get o' "updateId" = fst (generateToastId st) ∧ o' !! "staleToastId" = None
    else get o' "staleToastId" = id ∧ get o' "toastId" = target.

(** No key occurs twice in the registry. *)
Definition registry_wf (st : state) : Prop :=
  NoDup (fst <$> containers st).

(** ** Concrete data for the examples *)

Module Sample.

(** One choice of the constants, with the action names the module
    itself emits under. *)
Definition U : utils :=
  {| ACTION_SHOW := JStr "show";
     ACTION_CLEAR := JStr "clear";
     ACTION_DID_MOUNT := JStr "didMount";
     ACTION_WILL_UNMOUNT := JStr "willUnmount";
     TYPE_DEFAULT := JStr "default";
     canUseDom := true |}.

Definition rnd (n : nat) : string * string :=
  (String.append "0.k" (String.append (pretty n) "x7q"), "kf12oi5").

Definition st0 : state := initial U rnd.

(** A container without [containerId], showing toast ["a"]. *)
Definition box : container :=
  {| c_ref := 7;
     containerId := JUndefined;
     collection := {["a" := mkToast (JStr "hello") {["autoClose" := JNum (Int 5000)]}]};
     isToastActive := fun id => bool_decide (id = JStr "a") |}.

(** A container with [containerId] ["side"], showing nothing. *)
Definition side : container :=
  {| c_ref := 8;
     containerId := JStr "side";
     collection := ∅;
     isToastActive := fun _ => false |}.

Definition st_box : state := did_mount st0 box.

(** Two calls made before anything is mounted. *)
Definition calls : list show_call :=
  [mkCall (TYPE_DEFAULT U) (JStr "hi") (Some {["toastId" := JStr "a"]});
   mkCall (JStr "error") (JStr "yo") None].

(** What a container subscribes to before it announces itself. *)
Definition subs : list (jsval * listener) :=
  [(JStr "show", Callback 1); (JStr "clear", Callback 2)].

Definition st_both : state := did_mount (subscribe_all st_box subs) side.

(** Lazy mounting armed, then one toast with nothing mounted. *)
Definition st_lazy : state :=
  snd (toast U (configure st0 (JRef 1)) (JStr "hi") None).

(** A second container announcing itself under the key of [side]. *)
Definition side2 : container :=
  {| c_ref := 9;
     containerId := JStr "side";
     collection := {["b" := mkToast (JStr "bye") ∅]};
     isToastActive := fun id => bool_decide (id = JStr "b") |}.

End Sample.

(** * Properties *)

(** ** The registry map *)

Lemma JsMap_get_set_eq {V} (m : list (jsval * V)) k v :
  JsMap.get (JsMap.set m k v) k = Some v.
Proof.
  unfold JsMap.get. induction m as [|[k' v'] m IH]; simpl.
  - rewrite bool_decide_eq_true_2; done.
  - destruct (bool_decide (k' = k)) eqn:E; simpl.
    + rewrite bool_decide_eq_true_2; done.
    + rewrite E. exact IH.
Qed.

Lemma JsMap_set_nonempty {V} (m : list (jsval * V)) k v : JsMap.set m k v ≠ [].
Proof. destruct m as [|[k' v'] m]; simpl; [done|]. by case_bool_decide. Qed.

Lemma JsMap_elem_of_delete {V} (m : list (jsval * V)) k e :
  e ∈ JsMap.delete m k ↔ e ∈ m ∧ fst e ≠ k.
Proof. unfold JsMap.delete. rewrite list_elem_of_filter. tauto. Qed.

Lemma JsMap_get_delete {V} (m : list (jsval * V)) k k' :
  JsMap.get (JsMap.delete m k) k' =
    if decide (k' = k) then None else JsMap.get m k'.
Proof.
  unfold JsMap.get, JsMap.delete.
  induction m as [|[a v] m IH]; simpl.
  - by case_decide.
  - rewrite filter_cons. simpl. destruct (decide (a ≠ k)) as [Hne|Heq]; simpl.
    + destruct (bool_decide (a = k')) eqn:E; simpl.
      * apply bool_decide_eq_true_1 in E. subst a. by rewrite decide_False.
      * exact IH.
    + assert (a = k) as -> by (destruct (decide (a = k)); [done | contradiction]).
      rewrite IH. case_decide as Hk; [done|].
      rewrite bool_decide_eq_false_2; [done | congruence].
Qed.

(** ** The bus *)

Lemma receivers_bus_off_same st act :
  receivers (bus_off st act None) act = [].
Proof.
  unfold receivers, bus_off. simpl.
  induction (listeners st) as [|[a l] ls IH]; simpl; [done|].
  destruct (bool_decide (a = act)) eqn:E; simpl; [exact IH|].
  rewrite E. exact IH.
Qed.

Lemma receivers_bus_off_other st act act' :
  receivers st act = [] → receivers (bus_off st act' None) act = [].
Proof.
  unfold receivers, bus_off. simpl.
  induction (listeners st) as [|[a l] ls IH]; simpl; [done|].
  destruct (bool_decide (a = act)) eqn:E; simpl; [done|].
  intros H. destruct (bool_decide (a = act')); simpl; [by apply IH|].
  rewrite E. by apply IH.
Qed.

(** ** isActive *)

Lemma isActive_fold id (snap : list jsval) (l : list (jsval * container)) b st :
  fst (fold_left
         (fun acc e =>
            let st1 := set_console (snd acc) (console (snd acc) ++ [snap]) in
            (if isToastActive (snd e) id then true else fst acc, st1))
         l (b, st))
  = b || existsb (fun e => isToastActive (snd e) id) l.
Proof.
  revert b st. induction l as [|e l IH]; intros b st; simpl.
  - by rewrite orb_false_r.
  - rewrite IH. destruct (isToastActive (snd e) id), b; simpl; done.
Qed.

(** C4. [isActive(id)] is false when the registry is empty, and it is
    true exactly when some registered container answers true to
    [isToastActive(id)]. *)
Theorem isActive_iff_some_container (st : state) (id : jsval) :
  (containers st = [] → fst (isActive st id) = false) ∧
  (fst (isActive st id) = true ↔
     ∃ k c, (k, c) ∈ containers st ∧ isToastActive c id = true).
Proof.
  split.
  - intros E. unfold isActive. by rewrite E.
  - unfold isActive, JsMap.size.
    destruct (containers st) as [|e l] eqn:E.
    + simpl. split; [done|]. intros (k & c & Hin & _). by apply elem_of_nil in Hin.
    + assert ((0 <? length (e :: l))%nat = true) as -> by reflexivity.
      rewrite isActive_fold, orb_false_l, existsb_exists. split.
      * intros ([k c] & Hin & Hact). exists k, c. split; [|done].
        by apply list_elem_of_In.
      * intros (k & c & Hin & Hact). exists (k, c). split; [|done].
        by apply list_elem_of_In.
Qed.

(** ** dismiss *)

(** C5. With a container registered, [dismiss(id)] emits one ["clear"]
    carrying [id] ([JUndefined] when the argument is left out) and
    changes nothing else; with none registered it leaves the state as it
    is. It never touches the queue. *)
Theorem dismiss_emits_iff_mounted (st : state) (id : jsval) :
  (containers st ≠ [] →
     dismiss st id =
       set_emitted st
         (emitted st ++ [mkEmission (JStr "clear") [AVal id] (receivers st (JStr "clear"))])) ∧
  (containers st = [] → dismiss st id = st) ∧
  queue (dismiss st id) = queue st.
Proof.
  unfold dismiss, isAnyContainerMounted, JsMap.size.
  destruct (containers st) as [|e l]; simpl; repeat split; done.
Qed.

(** ** Identifiers *)

Lemma getToastId_test (v : jsval) :
  bool_decide (typeof v = TString)
    || (bool_decide (typeof v = TNumber) && negb (isNaN v)) = accepted_id v.
Proof. destruct v as [| | |[|]| | |]; reflexivity. Qed.

Lemma generateToastId_frame st :
  let st' := snd (generateToastId st) in
  containers st' = containers st ∧ queue st' = queue st ∧
  emitted st' = emitted st ∧ listeners st' = listeners st ∧
  lazy st' = lazy st ∧ timers st' = timers st ∧
  latestInstance st' = latestInstance st.
Proof. unfold generateToastId. destruct (entropy st (draws st)). simpl. tauto. Qed.

Lemma getToastId_fst st o :
  fst (getToastId st o) =
    if accepted_id (supplied_id o) then supplied_id o else fst (generateToastId st).
Proof.
  destruct o as [o|]; simpl; [|done].
  rewrite getToastId_test. by destruct (accepted_id (get o "toastId")).
Qed.

Lemma getToastId_frame st o :
  let st' := snd (getToastId st o) in
  containers st' = containers st ∧ queue st' = queue st ∧
  emitted st' = emitted st ∧ listeners st' = listeners st ∧
  lazy st' = lazy st ∧ timers st' = timers st ∧
  latestInstance st' = latestInstance st.
Proof.
  destruct o as [o|]; simpl; [|apply generateToastId_frame].
  destruct (_ || _); [simpl; tauto | apply generateToastId_frame].
Qed.

Lemma spread_empty_l (o : options) : spread ∅ o = o.
Proof. unfold spread. apply (right_id_L ∅ (∪)). Qed.

Lemma mergeOptions_eq st o ty :
  mergeOptions st o ty =
    (<["toastId" := fst (getToastId st o)]> (<["type" := ty]> (default ∅ o)),
     snd (getToastId st o)).
Proof.
  unfold mergeOptions. destruct (getToastId st o) as [id st1]. simpl.
  by rewrite spread_empty_l.
Qed.

Lemma get_insert_eq (o : options) k v : get (<[k := v]> o) k = v.
Proof. unfold get. by rewrite lookup_insert_eq. Qed.

Lemma get_insert_ne (o : options) k k' v : k ≠ k' → get (<[k := v]> o) k' = get o k'.
Proof. intros. unfold get. by rewrite lookup_insert_ne. Qed.

(** ** dispatchToast *)

Lemma receivers_same st st' act :
  listeners st' = listeners st → receivers st' act = receivers st act.
Proof. unfold receivers. by intros ->. Qed.

Lemma dispatchToast_mounted U st c o :
  containers st ≠ [] →
  dispatchToast U st c o =
    (get o "toastId",
     set_emitted st
       (emitted st ++ [mkEmission (JStr "show") [AVal c; AOpts o] (receivers st (JStr "show"))])).
Proof.
  intros H. unfold dispatchToast, isAnyContainerMounted, JsMap.size.
  destruct (containers st); [done|]. reflexivity.
Qed.

Lemma dispatchToast_unmounted U st c o :
  containers st = [] →
  let st' := snd (dispatchToast U st c o) in
  fst (dispatchToast U st c o) = get o "toastId" ∧
  queue st' = queue st ++ [mkItem (JStr "show") c o] ∧
  containers st' = [] ∧ emitted st' = emitted st ∧ listeners st' = listeners st.
Proof.
  intros H. unfold dispatchToast, isAnyContainerMounted, JsMap.size.
  rewrite H. simpl. destruct (lazy st && canUseDom U); simpl; rewrite ?H; tauto.
Qed.

(** C3, as the code has it. [toast(content, options)] -- and every type
    shortcut, which shares its body -- returns [options.toastId] when
    that is a string (the empty one included) or a number other than
    NaN, and a freshly generated identifier otherwise; the options that
    are emitted (a container is registered) or enqueued (none is) carry
    the returned identifier as their [toastId]. *)
Theorem toast_returns_resolved_id (U : utils) (ty : jsval) (st : state)
    (c : jsval) (o : option options) :
  let r := toast_as U ty st c o in
  fst r = (if accepted_id (supplied_id o) then supplied_id o
           else fst (generateToastId st)) ∧
  (containers st ≠ [] →
     ∃ opts, emitted (snd r) =
               emitted st ++ [mkEmission (JStr "show") [AVal c; AOpts opts]
                                (receivers st (JStr "show"))] ∧
             get opts "toastId" = fst r) ∧
  (containers st = [] →
     ∃ opts, queue (snd r) = queue st ++ [mkItem (JStr "show") c opts] ∧
             get opts "toastId" = fst r).
Proof.
  unfold toast_as. rewrite mergeOptions_eq.
  set (ty' := js_or _ ty).
  set (merged := <["toastId" := _]> _).
  destruct (getToastId_frame st o) as (Hc & Hq & He & Hl & _).
  assert (Hid : get merged "toastId" = fst (getToastId st o))
    by apply get_insert_eq.
  split; [|split].
  - destruct (containers st) as [|e l] eqn:E.
    + destruct (dispatchToast_unmounted U (snd (getToastId st o)) c merged) as (-> & _);
        [congruence|]. by rewrite Hid, getToastId_fst.
    + rewrite dispatchToast_mounted by congruence. simpl.
      by rewrite Hid, getToastId_fst.
  - intros Hne. rewrite dispatchToast_mounted by congruence. simpl.
    exists merged. rewrite He, (receivers_same st _ _ Hl). done.
  - intros Hnil.
    destruct (dispatchToast_unmounted U (snd (getToastId st o)) c merged)
      as (Hf & Hq' & _); [congruence|].
    exists merged. rewrite Hq', Hq, Hf. done.
Qed.

(** ** update *)

Lemma getContainer_unmounted st cid : containers st = [] → getContainer st cid = None.
Proof. intros H. unfold getContainer, isAnyContainerMounted. by rewrite H. Qed.

Lemma getToast_unmounted st id o : containers st = [] → getToast st id o = None.
Proof. intros H. unfold getToast. by rewrite getContainer_unmounted. Qed.

Lemma getToast_mounted st id o t : getToast st id o = Some t → containers st ≠ [].
Proof. intros H E. by rewrite getToast_unmounted in H. Qed.

Lemma getToast_timers st x id o : getToast (set_timers st x) id o = getToast st id o.
Proof. reflexivity. Qed.

Lemma set_timers_id st : set_timers st (timers st) = st.
Proof. by destruct st. Qed.

Lemma tick_update U st id o :
  timers st = [] → tick U (update st id o) = update_callback U st id o.
Proof.
  intros Ht. unfold tick, update. cbn [timers set_timers]. rewrite Ht. cbn [app].
  f_equal. destruct st; simpl in *; by subst.
Qed.

Lemma update_request_in_place st id o t :
  getToast st id o = Some t →
  negb (truthy (get o "toastId")) || strict_eq (get o "toastId") id = true →
  ∃ c,
    update_request st id o =
      Some (c,
            delete "render"
              (<["updateId" := fst (generateToastId st)]>
                 (<["toastId" := id]> (spread (t_options t) o))),
            snd (generateToastId st)).
Proof.
  intros Ht Hb. unfold update_request. rewrite Ht, Hb.
  assert (js_or (get o "toastId") id = id) as ->.
  { unfold js_or. destruct (truthy (get o "toastId")) eqn:E; [|done].
    simpl in Hb. unfold strict_eq in Hb.
    destruct (get o "toastId") as [| | |[|]| | |], id as [| | |[|]| | |];
      try discriminate; by apply bool_decide_eq_true_1 in Hb. }
  rewrite !spread_empty_l.
  destruct (generateToastId st) as [uid st1]. simpl. eauto.
Qed.

Lemma update_request_move st id o t :
  getToast st id o = Some t →
  negb (truthy (get o "toastId")) || strict_eq (get o "toastId") id = false →
  get o "toastId" ≠ id ∧
  ∃ c,
    update_request st id o =
      Some (c,
            delete "render"
              (<["staleToastId" := id]>
                 (<["toastId" := get o "toastId"]> (spread (t_options t) o))),
            st).
Proof.
  intros Ht Hb. apply orb_false_elim in Hb as [Htr Hse].
  apply negb_false_iff in Htr. split.
  - intros E. rewrite E in Hse, Htr. unfold strict_eq in Hse.
    destruct id as [| | |[|]| | |]; try discriminate;
      by rewrite bool_decide_eq_true_2 in Hse.
  - unfold update_request. rewrite Ht, Htr, Hse. simpl.
    unfold js_or. rewrite Htr.
    rewrite !spread_empty_l. eauto.
Qed.

Lemma update_callback_found U st id o c o' st1 :
  update_request st id o = Some (c, o', st1) →
  emitted (update_callback U st id o) =
    emitted st ++ [mkEmission (JStr "show") [AVal c; AOpts o'] (receivers st (JStr "show"))] ∧
  queue (update_callback U st id o) = queue st ∧
  containers (update_callback U st id o) = containers st.
Proof.
  intros H. unfold update_callback. rewrite H.
  unfold update_request in H.
  destruct (getToast st id o) as [t|] eqn:Ht; [|done].
  pose proof (getToast_mounted _ _ _ _ Ht) as Hm.
  destruct (generateToastId_frame st) as (Hc & Hq & He & Hl & _).
  destruct (_ || _) in H.
  - destruct (generateToastId st) as [uid st2]. simpl in H, Hc, Hq, He, Hl.
    injection H as <- <- <-.
    rewrite dispatchToast_mounted by congruence. simpl.
    by rewrite He, Hq, Hc, (receivers_same st _ _ Hl).
  - injection H as <- <- <-.
    by rewrite dispatchToast_mounted.
Qed.

(** X20. When [getToast] returns null -- no container is selected, in
    particular whenever the registry is empty, or [collection[id]] is
    undefined, inherited properties counted -- the deferred function of [update] returns the
    state it was given: nothing is emitted, enqueued or otherwise
    changed; and once [update] has been called with no other timer
    pending, letting the timer fire restores the state before the call. *)
Theorem update_absent_is_noop (U : utils) (st : state) (id : jsval) (o : options) :
  containers st = [] ∨ getToast st id o = None →
  update_callback U st id o = st ∧
  (timers st = [] → tick U (update st id o) = st).
Proof.
  intros H.
  assert (Hn : getToast st id o = None)
    by (destruct H; [by apply getToast_unmounted | done]).
  split.
  - unfold update_callback, update_request. by rewrite Hn.
  - intros Ht. rewrite tick_update by done.
    unfold update_callback, update_request. by rewrite Hn.
Qed.

(** C2, as the code has it. When the record is found, the function
    deferred by [update(id, options)] emits one ["show"]; the identifier
    it goes out under is [options.toastId || id]. If [options.toastId]
    is falsy or strictly equal to [id], that identifier is [id], the
    options carry a freshly generated [updateId], and [staleToastId] is
    left as the merged old and new options had it. Otherwise the
    identifier is [options.toastId], which differs from [id],
    [staleToastId] is [id], and [updateId] is left as merged. *)
Theorem update_target_and_stamp (U : utils) (st : state) (id : jsval)
    (o : options) (t : toast_record) :
  getToast st id o = Some t →
  let otid := get o "toastId" in
  let merged := spread (t_options t) o in
  ∃ c o' st1,
    update_request st id o = Some (c, o', st1) ∧
    emitted (update_callback U st id o) =
      emitted st ++ [mkEmission (JStr "show") [AVal c; AOpts o'] (receivers st (JStr "show"))] ∧
    get o' "toastId" = js_or otid id ∧
    if negb (truthy otid) || strict_eq otid id
    then get o' "toastId" = id ∧
         get o' "updateId" = fst (generateToastId st) ∧
         o' !! "staleToastId" = merged !! "staleToastId"
    else get o' "toastId" = otid ∧ otid ≠ id ∧
         get o' "staleToastId" = id ∧
         o' !! "updateId" = merged !! "updateId".
Proof.
  intros Ht otid merged.
  destruct (negb (truthy otid) || strict_eq otid id) eqn:Hb.
  - destruct (update_request_in_place st id o t Ht Hb) as (c & Hr).
    eexists _, _, _. split; [exact Hr|].
    split; [by apply (update_callback_found U) in Hr as (? & _)|].
    assert (Hid : js_or otid id = id).
    { unfold js_or. destruct (truthy otid) eqn:E; [|done]. simpl in Hb.
      unfold strict_eq in Hb.
      destruct otid as [| | |[|]| | |], id as [| | |[|]| | |];
        try discriminate; by apply bool_decide_eq_true_1 in Hb. }
    unfold get. rewrite Hid.
    rewrite !lookup_delete_ne, lookup_insert_eq by done.
    rewrite (lookup_insert_ne _ "updateId" "toastId"), lookup_insert_eq by done.
    rewrite (lookup_insert_ne _ "updateId" "staleToastId") by done.
    rewrite (lookup_insert_ne _ "toastId" "staleToastId") by done.
    done.
  - destruct (update_request_move st id o t Ht Hb) as (Hne & c & Hr).
    eexists _, _, _. split; [exact Hr|].
    split; [by apply (update_callback_found U) in Hr as (? & _)|].
    apply orb_false_elim in Hb as [Htr _]. apply negb_false_iff in Htr.
    unfold js_or. fold otid. rewrite Htr.
    unfold get. fold (get o "toastId"). fold otid.
    rewrite !lookup_delete_ne, lookup_insert_eq by done.
    rewrite (lookup_insert_ne _ "staleToastId" "toastId"), lookup_insert_eq by done.
    rewrite (lookup_insert_ne _ "staleToastId" "updateId") by done.
    rewrite (lookup_insert_ne _ "toastId" "updateId") by done.
    done.
Qed.

(** C10. When [options.toastId] is the number 0 or the empty string and
    a record exists under [id], the deferred function of [update] emits
    the record under [id] itself, with a freshly generated [updateId];
    it does not write [staleToastId], which stays as the merged old and
    new options had it (absent when neither had one). *)
Theorem update_falsy_target_in_place (U : utils) (st : state) (id : jsval)
    (o : options) (t : toast_record) :
  getToast st id o = Some t →
  get o "toastId" = JNum (Int 0) ∨ get o "toastId" = JStr "" →
  ∃ c o' st1,
    update_request st id o = Some (c, o', st1) ∧
    emitted (update_callback U st id o) =
      emitted st ++ [mkEmission (JStr "show") [AVal c; AOpts o'] (receivers st (JStr "show"))] ∧
    get o' "toastId" = id ∧
    get o' "updateId" = fst (generateToastId st) ∧
    o' !! "staleToastId" = spread (t_options t) o !! "staleToastId" ∧
    (t_options t !! "staleToastId" = None → o !! "staleToastId" = None →
     o' !! "staleToastId" = None).
Proof.
  intros Ht Hfalsy.
  assert (Hb : negb (truthy (get o "toastId")) || strict_eq (get o "toastId") id = true)
    by (destruct Hfalsy as [-> | ->]; reflexivity).
  destruct (update_request_in_place st id o t Ht Hb) as (c & Hr).
  eexists _, _, _. split; [exact Hr|].
  split; [by apply (update_callback_found U) in Hr as (? & _)|].
  unfold get.
  rewrite !lookup_delete_ne, lookup_insert_eq by done.
  rewrite (lookup_insert_ne _ "updateId" "toastId"), lookup_insert_eq by done.
  rewrite (lookup_insert_ne _ "updateId" "staleToastId") by done.
  rewrite (lookup_insert_ne _ "toastId" "staleToastId") by done.
  repeat split; [done..|].
  intros H1 H2. unfold spread. by rewrite lookup_union, H1, H2.
Qed.

(** C8. [done(id)] is the call [update(id, {progress: 1})]: the two
    produce the same state, so no later step can tell them apart. The
    call itself only schedules the deferred function -- nothing is
    emitted or enqueued by it -- and when the function runs and finds the
    record, the ["show"] it emits carries [progress] 1, the identifier
    [id] and a freshly generated [updateId]. *)
Theorem done_is_update_progress_1 (U : utils) (st : state) (id : jsval) :
  let one : options := {["progress" := JNum (Int 1)]} in
  done st id = update st id one ∧
  (∀ n, Nat.iter n (tick U) (done st id) = Nat.iter n (tick U) (update st id one)) ∧
  timers (done st id) = timers st ++ [(id, one)] ∧
  emitted (done st id) = emitted st ∧
  queue (done st id) = queue st ∧
  (∀ t, timers st = [] → getToast st id one = Some t →
     ∃ c o',
       emitted (tick U (done st id)) =
         emitted st ++ [mkEmission (JStr "show") [AVal c; AOpts o'] (receivers st (JStr "show"))] ∧
       get o' "progress" = JNum (Int 1) ∧
       get o' "toastId" = id ∧
       get o' "updateId" = fst (generateToastId st)).
Proof.
  intros one. repeat split; try reflexivity.
  intros t Htm Ht. unfold done. fold one. rewrite tick_update by done.
  assert (Hb : negb (truthy (get one "toastId")) || strict_eq (get one "toastId") id = true)
    by reflexivity.
  destruct (update_request_in_place st id one t Ht Hb) as (c & Hr).
  eexists _, _. split; [by apply (update_callback_found U) in Hr as (? & _)|].
  unfold get.
  rewrite !lookup_delete_ne by done.
  rewrite (lookup_insert_ne _ "updateId" "progress") by done.
  rewrite (lookup_insert_ne _ "toastId" "progress") by done.
  rewrite (lookup_insert_ne _ "updateId" "toastId"), !lookup_insert_eq by done.
  unfold spread. rewrite lookup_union. unfold one at 1.
  rewrite lookup_singleton_eq.
  by destruct (t_options t !! "progress").
Qed.

(** ** Mounting and unmounting *)

Lemma removeChild_frame st n :
  let st' := fst (removeChild st n) in
  containers st' = containers st ∧ listeners st' = listeners st ∧ queue st' = queue st.
Proof. unfold removeChild. by case_bool_decide. Qed.

Lemma will_unmount_frame U st inst :
  let st' := fst (will_unmount U st inst) in
  containers st' =
    match inst with
    | Some c => JsMap.delete (containers st) (container_key c)
    | None => []
    end ∧
  listeners st' =
    (if Nat.eqb (length (containers st')) 0
     then listeners (bus_off (bus_off st (ACTION_SHOW U) None) (ACTION_CLEAR U) None)
     else listeners st) ∧
  queue st' = queue st.
Proof.
  unfold will_unmount.
  set (st1 := match inst with Some _ => _ | None => _ end).
  set (st2 := if Nat.eqb _ 0 then _ else _).
  assert (H1 : containers st1 = match inst with
                                | Some c => JsMap.delete (containers st) (container_key c)
                                | None => []
                                end) by (by destruct inst).
  assert (H1l : listeners st1 = listeners st) by (by destruct inst).
  assert (H1q : queue st1 = queue st) by (by destruct inst).
  assert (H2 : containers st2 = containers st1 ∧ queue st2 = queue st1 ∧
               listeners st2 =
                 if Nat.eqb (length (containers st1)) 0
                 then listeners (bus_off (bus_off st (ACTION_SHOW U) None) (ACTION_CLEAR U) None)
                 else listeners st).
  { unfold st2, JsMap.size. destruct (Nat.eqb (length (containers st1)) 0); [|done].
    repeat split. unfold bus_off. simpl. by rewrite H1l. }
  destruct H2 as (H2c & H2q & H2l).
  assert (Hf : ∀ r : state * outcome,
             containers (fst r) = containers st2 →
             listeners (fst r) = listeners st2 →
             queue (fst r) = queue st2 →
             containers (fst r) =
               match inst with
               | Some c => JsMap.delete (containers st) (container_key c)
               | None => []
               end ∧
             listeners (fst r) =
               (if Nat.eqb (length (containers (fst r))) 0
                then listeners (bus_off (bus_off st (ACTION_SHOW U) None) (ACTION_CLEAR U) None)
                else listeners st) ∧
             queue (fst r) = queue st).
  { intros r Hc Hl Hq. rewrite Hc, Hl, Hq, H2c, H2l, H2q, H1q. by rewrite <- H1. }
  destruct (canUseDom U); [|by apply Hf].
  destruct (containerDomNode st2) as [n|]; [|by apply Hf].
  destruct (removeChild_frame st2 n) as (? & ? & ?). by apply Hf.
Qed.

(** C7. When the unmount event carries a container, the registry loses
    the entry stored under that container's key and keeps every other
    entry; when it carries none, the registry is emptied. Whenever the
    registry is empty afterwards, no listener remains registered for
    [ACTION.SHOW] or [ACTION.CLEAR]; when it is not, the listeners are
    left alone. This holds whether or not the removal of the lazily
    created DOM node then fails. *)
Theorem will_unmount_registry_and_listeners (U : utils) (st : state)
    (inst : option container) :
  let st' := fst (will_unmount U st inst) in
  (∀ c, inst = Some c →
     ∀ e, e ∈ containers st' ↔ e ∈ containers st ∧ fst e ≠ container_key c) ∧
  (inst = None → containers st' = []) ∧
  (containers st' = [] →
     receivers st' (ACTION_SHOW U) = [] ∧ receivers st' (ACTION_CLEAR U) = []) ∧
  (containers st' ≠ [] → listeners st' = listeners st).
Proof.
  intros st'. destruct (will_unmount_frame U st inst) as (Hc & Hl & _).
  cbv zeta in Hc, Hl. change (fst (will_unmount U st inst)) with st' in Hc, Hl.
  split; [|split; [|split]].
  - intros c -> e. rewrite Hc. apply JsMap_elem_of_delete.
  - intros ->. exact Hc.
  - intros He. rewrite He in Hl. cbn [length Nat.eqb] in Hl.
    split; rewrite (receivers_same _ _ _ Hl).
    + apply receivers_bus_off_other, receivers_bus_off_same.
    + apply receivers_bus_off_same.
  - intros Hne. rewrite Hl. by destruct (containers st').
Qed.

(** ** Showing before any container is mounted *)

Lemma toast_as_unmounted U ty st c o :
  containers st = [] →
  let r := toast_as U ty st c o in
  let requested := match o with Some o' => get o' "type" | None => JUndefined end in
  queue (snd r) =
    queue st ++ [mkItem (JStr "show") c
                   (<["toastId" := fst r]> (<["type" := js_or requested ty]> (default ∅ o)))] ∧
  containers (snd r) = [] ∧ emitted (snd r) = emitted st ∧
  listeners (snd r) = listeners st.
Proof.
  intros H. unfold toast_as. rewrite mergeOptions_eq.
  destruct (getToastId_frame st o) as (Hc & Hq & He & Hl & _).
  set (merged := <["toastId" := _]> _).
  destruct (dispatchToast_unmounted U (snd (getToastId st o)) c merged)
    as (Hf & Hq' & Hc' & He' & Hl'); [congruence|].
  assert (Hid : get merged "toastId" = fst (getToastId st o))
    by apply get_insert_eq.
  cbv zeta. rewrite Hf, Hq', Hc', He', Hl', Hq, He, Hl, Hid. done.
Qed.

Lemma toast_as_mounted U ty st c o :
  containers st ≠ [] →
  containers (snd (toast_as U ty st c o)) = containers st ∧
  queue (snd (toast_as U ty st c o)) = queue st.
Proof.
  intros H. unfold toast_as. rewrite mergeOptions_eq.
  destruct (getToastId_frame st o) as (Hc & Hq & _).
  rewrite dispatchToast_mounted by congruence. done.
Qed.

Lemma show_all_unmounted U calls : ∀ st,
  containers st = [] →
  let ids := fst (show_all U st calls) in
  let st' := snd (show_all U st calls) in
  length ids = length calls ∧
  queue st' = queue st ++ zip_with entry_of calls ids ∧
  containers st' = [] ∧ emitted st' = emitted st ∧ listeners st' = listeners st.
Proof.
  induction calls as [|[ty c o] calls IH]; intros st H; cbv zeta.
  - simpl. by rewrite app_nil_r.
  - simpl. destruct (toast_as_unmounted U ty st c o H)
      as (Hq & Hc & He & Hl).
    destruct (toast_as U ty st c o) as [id st1]. simpl in Hq, Hc, He, Hl.
    specialize (IH st1 Hc). cbv zeta in IH.
    destruct (show_all U st1 calls) as [ids st2]. simpl in IH |- *.
    destruct IH as (IHn & IHq & IHc & IHe & IHl).
    rewrite IHn, IHq, IHc, IHe, IHl, Hq, He, Hl, <- app_assoc. done.
Qed.

Lemma replay_emitted (q : list queue_item) : ∀ st,
  let st' := fold_left
               (fun s item => bus_emit s (action item) [AVal (content item); AOpts (q_options item)])
               q st in
  emitted st' =
    emitted st ++
      map (fun item => mkEmission (action item) [AVal (content item); AOpts (q_options item)]
                         (receivers st (action item))) q ∧
  listeners st' = listeners st ∧ containers st' = containers st.
Proof.
  induction q as [|item q IH]; intros st; cbv zeta; simpl.
  - by rewrite app_nil_r.
  - destruct (IH (bus_emit st (action item) [AVal (content item); AOpts (q_options item)]))
      as (He & Hl & Hc).
    rewrite He, Hl, Hc. simpl. rewrite <- app_assoc. done.
Qed.

Lemma subscribe_all_frame (subs : list (jsval * listener)) : ∀ st,
  listeners (subscribe_all st subs) = listeners st ++ subs ∧
  queue (subscribe_all st subs) = queue st ∧
  emitted (subscribe_all st subs) = emitted st ∧
  containers (subscribe_all st subs) = containers st.
Proof.
  unfold subscribe_all.
  induction subs as [|[a l] subs IH]; intros st; simpl.
  - by rewrite app_nil_r.
  - destruct (IH (bus_on st a l)) as (Hl & Hq & He & Hc).
    rewrite Hl, Hq, He, Hc. simpl. by rewrite <- app_assoc.
Qed.

(** C1. Take any state with no container registered and any sequence of
    calls of [toast] and of its type shortcuts. Each call appends one
    entry to the queue, holding the call's content and its options
    completed with [type] and with the identifier the call returned, and
    emits nothing. When a container then subscribes its listeners and
    registers, the [DID_MOUNT] handler emits the queued entries -- those
    already waiting, then the new ones -- one emission each, in queue
    order, to the listeners then registered for the entry's action, and
    leaves the queue empty and the registry non-empty. *)
Theorem queued_shows_replayed_in_order (U : utils) (st : state)
    (calls : list show_call) (subs : list (jsval * listener)) (inst : container) :
  containers st = [] →
  let ids := fst (show_all U st calls) in
  let st' := snd (show_all U st calls) in
  let ready := subscribe_all st' subs in
  length ids = length calls ∧
  queue st' = queue st ++ zip_with entry_of calls ids ∧
  emitted st' = emitted st ∧
  emitted (did_mount ready inst) =
    emitted st ++
      map (fun item => mkEmission (action item) [AVal (content item); AOpts (q_options item)]
                         (receivers ready (action item)))
          (queue st ++ zip_with entry_of calls ids) ∧
  queue (did_mount ready inst) = [] ∧
  containers (did_mount ready inst) ≠ [].
Proof.
  intros H ids st' ready.
  destruct (show_all_unmounted U calls st H) as (Hn & Hq & Hc & He & Hl).
  fold ids st' in Hn, Hq, Hc, He, Hl.
  destruct (subscribe_all_frame subs st') as (_ & Hq' & He' & _).
  fold ready in Hq', He'.
  repeat split; try done.
  - unfold did_mount. cbn [emitted set_queue].
    match goal with |- emitted (fold_left ?f ?q ?s) = _ =>
      destruct (replay_emitted q s) as (Hr & _) end.
    cbv zeta in Hr. rewrite Hr. cbn [queue emitted set_containers set_latestInstance].
    rewrite He', He, Hq', Hq. f_equal.
  - unfold did_mount. cbn [containers set_queue].
    match goal with |- containers (fold_left ?f ?q ?s) ≠ _ =>
      destruct (replay_emitted q s) as (_ & _ & Hr) end.
    cbv zeta in Hr. rewrite Hr. cbn [containers set_containers].
    apply JsMap_set_nonempty.
Qed.

(** ** The queue invariant *)

Lemma isActive_frame st id :
  containers (snd (isActive st id)) = containers st ∧
  queue (snd (isActive st id)) = queue st.
Proof.
  unfold isActive. destruct (Nat.ltb _ _); [|done].
  generalize (fst <$> containers st). intros snap.
  assert (∀ (l : list (jsval * container)) (acc : bool * state),
            containers (snd (fold_left
              (fun acc e =>
                 let st1 := set_console (snd acc) (console (snd acc) ++ [snap]) in
                 (if isToastActive (snd e) id then true else fst acc, st1)) l acc))
              = containers (snd acc) ∧
            queue (snd (fold_left
              (fun acc e =>
                 let st1 := set_console (snd acc) (console (snd acc) ++ [snap]) in
                 (if isToastActive (snd e) id then true else fst acc, st1)) l acc))
              = queue (snd acc)) as Hfold.
  { induction l as [|e l IH]; intros acc; simpl; [done|]. by rewrite !(proj1 (IH _)), !(proj2 (IH _)). }
  apply (Hfold (containers st) (false, st)).
Qed.

Lemma update_callback_frame U st id o :
  containers (update_callback U st id o) = containers st ∧
  queue (update_callback U st id o) = queue st.
Proof.
  destruct (update_request st id o) as [[[c o'] st1]|] eqn:E.
  - by apply (update_callback_found U) in E as (_ & ? & ?).
  - unfold update_callback. by rewrite E.
Qed.

Lemma queue_inv_step (U : utils) (st : state) (o : op) :
  queue_inv st → queue_inv (run_op U st o).
Proof.
  unfold queue_inv. intros Inv.
  destruct o as [ty c opts|id|id|id opts|id|cb|cfg| |c|c]; simpl.
  - destruct (containers st) as [|e l] eqn:E.
    + destruct (toast_as_unmounted U ty st c opts E) as (_ & Hc & _). cbv zeta in Hc.
      by rewrite Hc.
    + destruct (toast_as_mounted U ty st c opts) as (Hc & Hq); [congruence|].
      rewrite Hq. intros _. by apply Inv.
  - unfold dismiss. by destruct (isAnyContainerMounted st).
  - destruct (isActive_frame st id) as (-> & ->). exact Inv.
  - exact Inv.
  - exact Inv.
  - by destruct cb.
  - exact Inv.
  - unfold tick. destruct (timers st) as [|[id opts] rest]; [exact Inv|].
    destruct (update_callback_frame U (set_timers st rest) id opts) as (-> & ->).
    exact Inv.
  - intros _. reflexivity.
  - destruct (will_unmount_frame U st c) as (Hc & _ & Hq). cbv zeta in Hc, Hq.
    rewrite Hc, Hq. intros Hne. apply Inv. intros E. apply Hne. rewrite E.
    by destruct c.
Qed.

Lemma queue_inv_initial (U : utils) rnd : queue_inv (initial U rnd).
Proof. by intros _. Qed.

Lemma queue_inv_run (U : utils) (os : list op) : ∀ st,
  queue_inv st → queue_inv (run_ops U st os).
Proof.
  unfold run_ops. induction os as [|o os IH]; intros st Inv; simpl; [done|].
  by apply IH, queue_inv_step.
Qed.

(** C9. If the queue is empty whenever a container is registered, then
    this still holds after any operation of the module -- a [toast] of
    any type, [dismiss], [isActive], [update], [done], [onChange],
    [configure] -- after a deferred update has run, and after the
    [DID_MOUNT] and [WILL_UNMOUNT] handlers; hence in every state
    reached from the initial one. *)
Theorem queue_empty_while_mounted (U : utils) (st : state) (o : op) :
  queue_inv st →
  queue_inv (run_op U st o) ∧
  ∀ rnd os, queue_inv (run_ops U (initial U rnd) os).
Proof.
  intros Inv. split.
  - by apply queue_inv_step.
  - intros rnd os. apply queue_inv_run, queue_inv_initial.
Qed.

(** * The theorems at concrete inputs *)

Lemma queued_shows_replayed_in_order_witness :
  containers Sample.st0 = [] ∧
  queue (snd (show_all Sample.U Sample.st0 Sample.calls)) =
    [mkItem (JStr "show") (JStr "hi") {["toastId" := JStr "a"; "type" := JStr "default"]};
     mkItem (JStr "show") (JStr "yo") {["toastId" := JStr "k0x7qkf12o"; "type" := JStr "error"]}] ∧
  em_receivers <$>
    emitted (did_mount (subscribe_all (snd (show_all Sample.U Sample.st0 Sample.calls))
                          Sample.subs) Sample.box)
    = [[Callback 1]; [Callback 1]] ∧
  queue (did_mount (subscribe_all (snd (show_all Sample.U Sample.st0 Sample.calls))
                      Sample.subs) Sample.box) = [].
Proof.
  destruct (queued_shows_replayed_in_order Sample.U Sample.st0 Sample.calls Sample.subs
              Sample.box eq_refl)
    as (_ & Hq & _ & He & Hd & _).
  split; [reflexivity|]. split; [|split; [|exact Hd]].
  - rewrite Hq. vm_compute. reflexivity.
  - rewrite He. vm_compute. reflexivity.
Defined.

Lemma update_target_and_stamp_witness :
  ∃ c o' st1,
    update_request Sample.st_box (JStr "a") {["toastId" := JStr "b"]} = Some (c, o', st1) ∧
    get o' "toastId" = JStr "b" ∧ get o' "staleToastId" = JStr "a".
Proof.
  assert (Hg : getToast Sample.st_box (JStr "a") {["toastId" := JStr "b"]} =
               Some (mkToast (JStr "hello") {["autoClose" := JNum (Int 5000)]}))
    by (vm_compute; reflexivity).
  destruct (update_target_and_stamp Sample.U Sample.st_box (JStr "a") _ _ Hg)
    as (c & o' & st1 & Hr & _ & _ & Hcase).
  exists c, o', st1. split; [exact Hr|].
  assert (Hb : negb (truthy (get ({["toastId" := JStr "b"]} : options) "toastId"))
               || strict_eq (get ({["toastId" := JStr "b"]} : options) "toastId") (JStr "a")
               = false) by (vm_compute; reflexivity).
  rewrite Hb in Hcase.
  destruct Hcase as (H1 & _ & H2 & _). split; [|exact H2].
  rewrite H1. vm_compute. reflexivity.
Defined.

Lemma update_falsy_target_in_place_witness :
  ∃ c o' st1,
    update_request Sample.st_box (JStr "a") {["toastId" := JNum (Int 0)]} = Some (c, o', st1) ∧
    get o' "toastId" = JStr "a" ∧
    get o' "updateId" = JStr "k0x7qkf12o" ∧
    o' !! "staleToastId" = None.
Proof.
  assert (Hg : getToast Sample.st_box (JStr "a") {["toastId" := JNum (Int 0)]} =
               Some (mkToast (JStr "hello") {["autoClose" := JNum (Int 5000)]}))
    by (vm_compute; reflexivity).
  assert (Hz : get ({["toastId" := JNum (Int 0)]} : options) "toastId" = JNum (Int 0))
    by (vm_compute; reflexivity).
  destruct (update_falsy_target_in_place Sample.U Sample.st_box (JStr "a") _ _
              Hg (or_introl Hz))
    as (c & o' & st1 & Hr & _ & H1 & H2 & _ & H3).
  exists c, o', st1. repeat split; [exact Hr | exact H1 | |].
  - rewrite H2. vm_compute. reflexivity.
  - apply H3; vm_compute; reflexivity.
Defined.

Lemma update_absent_is_noop_witness :
  update_callback Sample.U Sample.st0 (JStr "a") ∅ = Sample.st0 ∧
  update_callback Sample.U Sample.st_box (JStr "gone") ∅ = Sample.st_box ∧
  tick Sample.U (update Sample.st_box (JStr "gone") ∅) = Sample.st_box.
Proof.
  assert (Hg : getToast Sample.st_box (JStr "gone") ∅ = None)
    by (vm_compute; reflexivity).
  destruct (update_absent_is_noop Sample.U Sample.st0 (JStr "a") ∅ (or_introl eq_refl))
    as (H0 & _).
  destruct (update_absent_is_noop Sample.U Sample.st_box (JStr "gone") ∅ (or_intror Hg))
    as (H1 & H2).
  split; [exact H0|]. split; [exact H1|]. apply H2. reflexivity.
Defined.

Lemma queue_empty_while_mounted_witness :
  let waiting := snd (show_all Sample.U Sample.st0 Sample.calls) in
  let shown := run_op Sample.U Sample.st_both (OpToast (JStr "info") (JStr "hi") None) in
  (length (queue waiting) = 2 ∧ queue_inv waiting ∧
   containers (run_op Sample.U waiting (OpDidMount Sample.box)) ≠ [] ∧
   queue (run_op Sample.U waiting (OpDidMount Sample.box)) = [] ∧
   queue_inv (run_op Sample.U waiting (OpDidMount Sample.box))) ∧
  (containers Sample.st_both ≠ [] ∧ queue_inv Sample.st_both ∧
   containers shown ≠ [] ∧ length (emitted shown) = 1 ∧ queue_inv shown).
Proof.
  intros waiting shown.
  assert (Hw : queue_inv waiting) by (intros H; vm_compute in H; contradiction).
  assert (Hb : queue_inv Sample.st_both) by (intros _; vm_compute; reflexivity).
  split.
  - split; [vm_compute; reflexivity|]. split; [exact Hw|].
    split; [vm_compute; discriminate|]. split; [reflexivity|].
    exact (proj1 (queue_empty_while_mounted Sample.U waiting (OpDidMount Sample.box) Hw)).
  - split; [vm_compute; discriminate|]. split; [exact Hb|].
    split; [vm_compute; discriminate|]. split; [vm_compute; reflexivity|].
    exact (proj1 (queue_empty_while_mounted Sample.U Sample.st_both
                    (OpToast (JStr "info") (JStr "hi") None) Hb)).
Defined.

Lemma isActive_iff_some_container_witness :
  fst (isActive Sample.st0 (JStr "a")) = false ∧
  fst (isActive Sample.st_both (JStr "a")) = true.
Proof.
  split.
  - apply (proj1 (isActive_iff_some_container Sample.st0 (JStr "a"))). reflexivity.
  - apply (proj2 (isActive_iff_some_container Sample.st_both (JStr "a"))).
    exists (JRef 7), Sample.box. split; [|reflexivity].
    vm_compute. apply list_elem_of_here.
Defined.

Lemma dismiss_emits_iff_mounted_witness :
  dismiss Sample.st0 (JStr "a") = Sample.st0 ∧
  emitted (dismiss Sample.st_both JUndefined) =
    [mkEmission (JStr "clear") [AVal JUndefined] [Callback 2]].
Proof.
  split.
  - apply (proj1 (proj2 (dismiss_emits_iff_mounted Sample.st0 (JStr "a")))). reflexivity.
  - rewrite (proj1 (dismiss_emits_iff_mounted Sample.st_both JUndefined)); [reflexivity|].
    vm_compute. discriminate.
Defined.

Lemma will_unmount_registry_and_listeners_witness :
  containers (fst (will_unmount Sample.U Sample.st_both None)) = [] ∧
  receivers (fst (will_unmount Sample.U Sample.st_both None)) (JStr "show") = [] ∧
  receivers (fst (will_unmount Sample.U Sample.st_both None)) (JStr "clear") = [].
Proof.
  destruct (will_unmount_registry_and_listeners Sample.U Sample.st_both None)
    as (_ & Hc & Hl & _).
  split; [apply Hc; reflexivity|]. apply Hl, Hc. reflexivity.
Defined.

Lemma done_is_update_progress_1_witness :
  ∃ c o',
    emitted (tick Sample.U (done Sample.st_box (JStr "a"))) =
      emitted Sample.st_box ++
        [mkEmission (JStr "show") [AVal c; AOpts o'] (receivers Sample.st_box (JStr "show"))] ∧
    get o' "progress" = JNum (Int 1).
Proof.
  destruct (done_is_update_progress_1 Sample.U Sample.st_box (JStr "a"))
    as (_ & _ & _ & _ & _ & H).
  assert (Hg : getToast Sample.st_box (JStr "a") {["progress" := JNum (Int 1)]} =
               Some (mkToast (JStr "hello") {["autoClose" := JNum (Int 5000)]}))
    by (vm_compute; reflexivity).
  destruct (H _ eq_refl Hg) as (c & o' & He & Hp & _).
  exists c, o'. split; assumption.
Defined.

Lemma toast_returns_resolved_id_witness :
  fst (toast Sample.U Sample.st0 (JStr "hi") (Some {["toastId" := JNum (Int 5)]})) = JNum (Int 5) ∧
  ∃ opts,
    emitted (snd (toast Sample.U Sample.st_box (JStr "hi") None)) =
      emitted Sample.st_box ++
        [mkEmission (JStr "show") [AVal (JStr "hi"); AOpts opts]
           (receivers Sample.st_box (JStr "show"))] ∧
    get opts "toastId" = fst (toast Sample.U Sample.st_box (JStr "hi") None).
Proof.
  split.
  - exact (proj1 (toast_returns_resolved_id Sample.U (JStr "default") Sample.st0 (JStr "hi")
                    (Some {["toastId" := JNum (Int 5)]}))).
  - apply (proj1 (proj2 (toast_returns_resolved_id Sample.U (JStr "default") Sample.st_box
                           (JStr "hi") None))).
    vm_compute. discriminate.
Defined.

(** * Where the code departs from its own description *)

(** C6. [getToast] is described as returning null unless the toast is
    displayed, and an update of an absent toast is to do nothing. The
    lookup [collection[toastId]] also finds what the collection
    inherits: with a container registered that displays only toast
    ["a"], [update("constructor", {})] finds [Object], which is not
    undefined, and once the timer fires a ["show"] goes out with no
    content, under the identifier ["constructor"], with a generated
    [updateId]. *)
Theorem update_inherited_key_dispatches :
  collection Sample.box !! "constructor" = None ∧
  getToast Sample.st_box (JStr "constructor") ∅ = Some inherited_member ∧
  emitted (tick Sample.U (update Sample.st_box (JStr "constructor") ∅)) =
    emitted Sample.st_box ++
      [mkEmission (JStr "show")
         [AVal JUndefined;
          AOpts {["toastId" := JStr "constructor"; "updateId" := JStr "k0x7qkf12o"]}]
         []] ∧
  tick Sample.U (update Sample.st_box (JStr "constructor") ∅) ≠ Sample.st_box.
Proof.
  split; [vm_compute; reflexivity|]. split; [vm_compute; reflexivity|].
  assert (He : emitted (tick Sample.U (update Sample.st_box (JStr "constructor") ∅)) =
               emitted Sample.st_box ++
                 [mkEmission (JStr "show")
                    [AVal JUndefined;
                     AOpts {["toastId" := JStr "constructor";
                             "updateId" := JStr "k0x7qkf12o"]}]
                    []]) by (vm_compute; reflexivity).
  split; [exact He|].
  intros Heq. rewrite Heq in He. vm_compute in He. discriminate He.
Qed.

(** * Where the wording fails *)

(** C3, against the wording. With [toastId] the empty string, [toast]
    returns the empty string, not the identifier [generateToastId] would
    have produced. *)
Lemma toast_keeps_empty_string_id :
  well_formed_id (JStr "") = false ∧
  fst (toast Sample.U Sample.st0 (JStr "hi") (Some {["toastId" := JStr ""]})) = JStr "" ∧
  fst (generateToastId Sample.st0) = JStr "k0x7qkf12o" ∧
  ¬ resolves_as_worded Sample.U Sample.st0 (JStr "hi") (Some {["toastId" := JStr ""]}).
Proof.
  repeat split. intros H. vm_compute in H. discriminate H.
Qed.

(** C2, against the wording. [update("a", {toastId: 0})] on a displayed
    toast ["a"]: [0 ?? "a"] is 0, which differs from ["a"], so the wording
    asks for [staleToastId = "a"] and a dispatch under 0; the code
    dispatches under ["a"], with an [updateId] and no [staleToastId]. *)
Lemma update_zero_target_not_a_move :
  js_nullish (JNum (Int 0)) (JStr "a") = JNum (Int 0) ∧
  ¬ update_as_worded Sample.st_box (JStr "a") {["toastId" := JNum (Int 0)]}.
Proof.
  split; [reflexivity|]. intros H.
  assert (Hr : ∃ c o' st1,
             update_request Sample.st_box (JStr "a") {["toastId" := JNum (Int 0)]} =
               Some (c, o', st1)) by (vm_compute; eauto).
  destruct Hr as (c & o' & st1 & Hr).
  specialize (H _ _ _ Hr). vm_compute in Hr. injection Hr as <- <- <-.
  vm_compute in H. destruct H as [H _]. discriminate H.
Qed.


(** * Further properties of the module *)

(** ** The registry *)

Lemma JsMap_get_set_ne {V} (m : list (jsval * V)) k k' v :
  k ≠ k' → JsMap.get (JsMap.set m k v) k' = JsMap.get m k'.
Proof.
  intros Hne. unfold JsMap.get. induction m as [|[a w] m IH]; simpl.
  - by rewrite bool_decide_eq_false_2.
  - destruct (bool_decide (a = k)) eqn:E; simpl.
    + apply bool_decide_eq_true_1 in E. subst a.
      by rewrite !bool_decide_eq_false_2.
    + destruct (bool_decide (a = k')); [done | exact IH].
Qed.

Lemma JsMap_get_None {V} (m : list (jsval * V)) k :
  JsMap.get m k = None ↔ k ∉ (fst <$> m).
Proof.
  unfold JsMap.get. induction m as [|[a w] m IH]; simpl.
  - split; [intros _; apply not_elem_of_nil | done].
  - rewrite not_elem_of_cons. destruct (bool_decide (a = k)) eqn:E; simpl.
    + apply bool_decide_eq_true_1 in E. split; [done | intros [? _]; congruence].
    + apply bool_decide_eq_false_1 in E. rewrite IH. split; [intros ?; split; [congruence | done] | tauto].
Qed.

Lemma JsMap_set_keys {V} (m : list (jsval * V)) k v :
  fst <$> JsMap.set m k v =
    if bool_decide (k ∈ (fst <$> m)) then fst <$> m else (fst <$> m) ++ [k].
Proof.
  induction m as [|[a w] m IH].
  - rewrite bool_decide_eq_false_2; [done | apply not_elem_of_nil].
  - cbn [JsMap.set]. rewrite !fmap_cons. cbn [fst].
    destruct (bool_decide (a = k)) eqn:E.
    + apply bool_decide_eq_true_1 in E. subst a.
      rewrite bool_decide_eq_true_2; [done | apply list_elem_of_here].
    + apply bool_decide_eq_false_1 in E. rewrite fmap_cons, IH. cbn [fst].
      destruct (bool_decide (k ∈ (fst <$> m))) eqn:E2.
      * apply bool_decide_eq_true_1 in E2.
        rewrite bool_decide_eq_true_2; [done | by apply list_elem_of_further].
      * apply bool_decide_eq_false_1 in E2.
        rewrite bool_decide_eq_false_2; [done|].
        rewrite elem_of_cons. intros [?|?]; congruence.
Qed.

Lemma JsMap_delete_fresh {V} (m : list (jsval * V)) k :
  k ∉ (fst <$> m) → JsMap.delete m k = m.
Proof.
  unfold JsMap.delete. induction m as [|[a w] m IH]; simpl; [done|].
  rewrite not_elem_of_cons. intros [Hne Hm].
  rewrite filter_cons. simpl. rewrite decide_True by congruence.
  by rewrite IH.
Qed.

Lemma JsMap_delete_set_fresh {V} (m : list (jsval * V)) k v :
  k ∉ (fst <$> m) → JsMap.delete (JsMap.set m k v) k = m.
Proof.
  unfold JsMap.delete. induction m as [|[a w] m IH]; simpl.
  - intros _. rewrite filter_cons. simpl. by rewrite decide_False by (by intros ?).
  - rewrite not_elem_of_cons. intros [Hne Hm].
    rewrite bool_decide_eq_false_2 by congruence.
    rewrite filter_cons. simpl. rewrite decide_True by congruence.
    by rewrite IH.
Qed.

Lemma truthy_container_key c : truthy (container_key c) = true.
Proof. unfold container_key, js_or. by destruct (truthy (containerId c)) eqn:E. Qed.

(** The replay loop of the mount handler, as one update of the log. *)
Lemma replay_eq (q : list queue_item) : ∀ st,
  fold_left
    (fun s item => bus_emit s (action item) [AVal (content item); AOpts (q_options item)])
    q st
  = set_emitted st
      (emitted st ++
         map (fun item => mkEmission (action item) [AVal (content item); AOpts (q_options item)]
                            (receivers st (action item))) q).
Proof.
  induction q as [|item q IH]; intros st; simpl.
  - rewrite app_nil_r. by destruct st.
  - rewrite IH. unfold bus_emit. cbn [emitted set_emitted].
    rewrite <- app_assoc. reflexivity.
Qed.

Lemma did_mount_eq st c :
  did_mount st c =
    set_queue
      (set_emitted
         (set_containers (set_latestInstance st (container_key c))
            (JsMap.set (containers st) (container_key c) c))
         (emitted st ++
            map (fun item => mkEmission (action item)
                               [AVal (content item); AOpts (q_options item)]
                               (receivers st (action item))) (queue st)))
      [].
Proof. unfold did_mount. rewrite replay_eq. reflexivity. Qed.

(** X1. Right after a container has mounted it is the one [getContainer]
    returns, both under its own key and when no container id (or a
    falsy one) is given. *)
Theorem mounted_container_is_found (st : state) (c : container) (cid : jsval) :
  truthy cid = false ∨ cid = container_key c →
  getContainer (did_mount st c) cid = Some c.
Proof.
  intros H. rewrite did_mount_eq. unfold getContainer, isAnyContainerMounted, JsMap.size.
  cbn [containers latestInstance set_queue set_emitted set_containers set_latestInstance].
  destruct (JsMap.set (containers st) (container_key c) c) as [|e l] eqn:E.
  { by apply JsMap_set_nonempty in E. }
  cbn [length Nat.ltb Nat.leb negb]. rewrite <- E.
  destruct H as [H | ->].
  - rewrite H. cbn [negb]. apply JsMap_get_set_eq.
  - rewrite truthy_container_key. cbn [negb]. apply JsMap_get_set_eq.
Qed.

(** X2. Mounting never disturbs the entries stored under other keys. A
    container that mounts under a key already in the registry takes the
    place of the one stored there and the registry keeps its size; under
    a new key the registry grows by one. *)
Theorem did_mount_overwrites_same_key (st : state) (c : container) :
  (∀ k, k ≠ container_key c →
        JsMap.get (containers (did_mount st c)) k = JsMap.get (containers st) k) ∧
  JsMap.get (containers (did_mount st c)) (container_key c) = Some c ∧
  JsMap.size (containers (did_mount st c)) =
    if bool_decide (container_key c ∈ (fst <$> containers st))
    then JsMap.size (containers st)
    else S (JsMap.size (containers st)).
Proof.
  rewrite did_mount_eq.
  cbn [containers set_queue set_emitted set_containers set_latestInstance].
  split; [|split].
  - intros k Hne. by apply JsMap_get_set_ne.
  - apply JsMap_get_set_eq.
  - unfold JsMap.size.
    rewrite <- (length_fmap fst (JsMap.set _ _ _)), JsMap_set_keys.
    case_bool_decide; rewrite ?length_app, !length_fmap; simpl; lia.
Qed.

(** ** Unmounting *)

Lemma will_unmount_fields U st inst :
  let st' := fst (will_unmount U st inst) in
  latestInstance st' = latestInstance st ∧ emitted st' = emitted st ∧
  timers st' = timers st ∧ lazy st' = lazy st ∧
  containerDomNode st' = containerDomNode st ∧ draws st' = draws st.
Proof.
  unfold will_unmount, removeChild, bus_off.
  destruct inst as [c|]; cbn [containers set_containers];
    destruct (Nat.eqb _ 0); destruct (canUseDom U);
    cbn [containerDomNode set_containers set_listeners listeners];
    destruct (containerDomNode st) eqn:En; try case_bool_decide; cbn; tauto.
Qed.

Lemma will_unmount_dom U st inst n :
  canUseDom U = true → containerDomNode st = Some n →
  snd (will_unmount U st inst) =
    (if bool_decide (n ∈ body st) then Returned else Threw "NotFoundError") ∧
  body (fst (will_unmount U st inst)) =
    if bool_decide (n ∈ body st)
    then List.filter (fun m => negb (Nat.eqb m n)) (body st)
    else body st.
Proof.
  intros Hdom Hn. unfold will_unmount, removeChild, bus_off. rewrite Hdom.
  destruct inst as [c|]; cbn [containers set_containers];
    destruct (Nat.eqb _ 0);
    cbn [containerDomNode set_containers set_listeners listeners body];
    rewrite Hn; cbn [body set_containers set_listeners];
    case_bool_decide; cbn; tauto.
Qed.

Lemma not_elem_of_removed (n : nat) (l : list nat) :
  n ∉ List.filter (fun m => negb (Nat.eqb m n)) l.
Proof.
  rewrite list_elem_of_In, filter_In. intros [_ H].
  by rewrite Nat.eqb_refl in H.
Qed.

Lemma receivers_bus_off_ne st act act' :
  act ≠ act' → receivers (bus_off st act' None) act = receivers st act.
Proof.
  intros Hne. unfold receivers, bus_off. cbn [listeners set_listeners].
  induction (listeners st) as [|[a l] ls IH]; simpl; [done|].
  destruct (bool_decide (a = act')) eqn:E; simpl.
  - apply bool_decide_eq_true_1 in E. subst a.
    rewrite bool_decide_eq_false_2 by congruence. exact IH.
  - destruct (bool_decide (a = act)); simpl; [f_equal|]; exact IH.
Qed.

(** X3. A container that mounts under a key not yet in the registry and
    then unmounts leaves the registry exactly as it was before it
    mounted. The record of the latest container is not taken back: it
    still names the container that left. *)
Theorem mount_then_unmount_restores_registry (U : utils) (st : state) (c : container) :
  JsMap.get (containers st) (container_key c) = None →
  containers (fst (will_unmount U (did_mount st c) (Some c))) = containers st ∧
  latestInstance (fst (will_unmount U (did_mount st c) (Some c))) = container_key c.
Proof.
  intros Hfresh. apply JsMap_get_None in Hfresh.
  destruct (will_unmount_frame U (did_mount st c) (Some c)) as (Hc & _).
  destruct (will_unmount_fields U (did_mount st c) (Some c)) as (Hl & _).
  cbv zeta in Hc, Hl. rewrite Hc, Hl, did_mount_eq.
  cbn [containers latestInstance set_queue set_emitted set_containers set_latestInstance].
  split; [by apply JsMap_delete_set_fresh | done].
Qed.

Lemma registry_wf_step (U : utils) (st : state) (o : op) :
  registry_wf st → registry_wf (run_op U st o).
Proof.
  unfold registry_wf. intros Wf.
  destruct o as [ty c opts|id|id|id opts|id|cb|cfg| |c|c]; cbn [run_op].
  - destruct (containers st) as [|e l] eqn:E.
    + destruct (toast_as_unmounted U ty st c opts E) as (_ & Hc & _). cbv zeta in Hc.
      rewrite Hc. constructor.
    + destruct (toast_as_mounted U ty st c opts) as (Hc & _); [congruence|].
      rewrite Hc, E. exact Wf.
  - unfold dismiss. by destruct (isAnyContainerMounted st).
  - by destruct (isActive_frame st id) as (-> & _).
  - exact Wf.
  - exact Wf.
  - unfold onChange. by destruct cb.
  - exact Wf.
  - unfold tick. destruct (timers st) as [|[id opts] rest]; [exact Wf|].
    by destruct (update_callback_frame U (set_timers st rest) id opts) as (-> & _).
  - rewrite did_mount_eq.
    cbn [containers set_queue set_emitted set_containers set_latestInstance].
    rewrite JsMap_set_keys. case_bool_decide as Hin; [exact Wf|].
    apply NoDup_app. split; [exact Wf|]. split; [|apply NoDup_singleton].
    intros x Hx ->%list_elem_of_singleton. contradiction.
  - destruct (will_unmount_frame U st c) as (Hc & _). cbv zeta in Hc. rewrite Hc.
    destruct c as [c|]; [|constructor].
    eapply sublist_NoDup; [exact Wf|].
    apply fmap_sublist, sublist_filter.
Qed.

(** X4. The registry never holds two entries under one key: this is
    kept by every operation of the module, by a deferred update and by
    both bus handlers, and so holds in every state reached from the
    initial one. *)
Theorem registry_keys_distinct (U : utils) (st : state) (os : list op) :
  registry_wf st →
  registry_wf (run_ops U st os) ∧
  ∀ rnd, registry_wf (run_ops U (initial U rnd) os).
Proof.
  assert (Hrun : ∀ os' st', registry_wf st' → registry_wf (run_ops U st' os')).
  { unfold run_ops. induction os' as [|o os' IH]; intros st' Wf; simpl; [done|].
    by apply IH, registry_wf_step. }
  intros Wf. split; [by apply Hrun|].
  intros rnd. apply Hrun. constructor.
Qed.

(** X5. Unmounting does not move [latestInstance]. Once the container
    it names has unmounted, a lookup without a container id finds
    nothing, whatever other containers are still registered; an update
    that names no container then does nothing, even for a toast one of
    them displays. *)
Theorem default_lookup_fails_after_latest_unmounts (U : utils) (st : state)
    (c : container) (cid : jsval) :
  latestInstance st = container_key c →
  truthy cid = false →
  let st' := fst (will_unmount U st (Some c)) in
  getContainer st' cid = None ∧
  ∀ id o, get o "containerId" = cid → update_callback U st' id o = st'.
Proof.
  intros Hlatest Hcid st'.
  assert (Hg : getContainer st' cid = None).
  { unfold getContainer. destruct (isAnyContainerMounted st'); [|done].
    rewrite Hcid. cbn [negb].
    destruct (will_unmount_frame U st (Some c)) as (Hc & _).
    destruct (will_unmount_fields U st (Some c)) as (Hl & _).
    cbv zeta in Hc, Hl. fold st' in Hc, Hl.
    rewrite Hc, Hl, Hlatest, JsMap_get_delete. by rewrite decide_True. }
  split; [exact Hg|].
  intros id o Ho. unfold update_callback, update_request, getToast.
  by rewrite Ho, Hg.
Qed.

(** X6. With the DOM available and a lazily created node recorded, an
    unmount removes the node from the document body when it is there and
    fails with NotFoundError when it is not; either way the node stays
    recorded in [containerDomNode] and is no longer in the body, so an
    unmount that follows directly, with no other call in between, fails
    with NotFoundError -- after it has updated the registry and the
    listeners. *)
Theorem lazy_node_removed_only_once (U : utils) (st : state)
    (inst inst' : option container) (n : node) :
  canUseDom U = true →
  containerDomNode st = Some n →
  let r := will_unmount U st inst in
  snd r = (if bool_decide (n ∈ body st) then Returned else Threw "NotFoundError") ∧
  (n ∉ body (fst r)) ∧
  containerDomNode (fst r) = Some n ∧
  snd (will_unmount U (fst r) inst') = Threw "NotFoundError".
Proof.
  intros Hdom Hn r.
  destruct (will_unmount_dom U st inst n Hdom Hn) as (Hout & Hbody).
  destruct (will_unmount_fields U st inst) as (_ & _ & _ & _ & Hnode & _).
  cbv zeta in Hnode. fold r in Hout, Hbody, Hnode.
  assert (Hgone : n ∉ body (fst r)).
  { rewrite Hbody. case_bool_decide; [apply not_elem_of_removed | done]. }
  assert (Hn' : containerDomNode (fst r) = Some n) by congruence.
  repeat split; try done.
  destruct (will_unmount_dom U (fst r) inst' n Hdom Hn') as (-> & _).
  by rewrite bool_decide_eq_false_2.
Qed.

(** X7. An unmount touches only the listeners of [ACTION.SHOW] and
    [ACTION.CLEAR]: the listeners of every other action -- those added
    through [onChange] for one -- are the same before and after. *)
Theorem will_unmount_keeps_other_listeners (U : utils) (st : state)
    (inst : option container) (act : jsval) :
  act ≠ ACTION_SHOW U → act ≠ ACTION_CLEAR U →
  receivers (fst (will_unmount U st inst)) act = receivers st act.
Proof.
  intros Hs Hc.
  destruct (will_unmount_frame U st inst) as (_ & Hl & _). cbv zeta in Hl.
  destruct (Nat.eqb _ 0) in Hl; rewrite (receivers_same _ _ _ Hl); [|done].
  by rewrite !receivers_bus_off_ne.
Qed.

(** ** Identifiers *)

Lemma generateToastId_snd st :
  snd (generateToastId st) = set_draws st (S (draws st)).
Proof. unfold generateToastId. by destruct (entropy st (draws st)). Qed.

Lemma getToastId_snd st o :
  snd (getToastId st o) =
    if accepted_id (supplied_id o) then st else set_draws st (S (draws st)).
Proof.
  destruct o as [o|]; simpl; [|apply generateToastId_snd].
  rewrite getToastId_test.
  destruct (accepted_id (get o "toastId")); [done | apply generateToastId_snd].
Qed.

Lemma toast_as_fst U ty st c o :
  fst (toast_as U ty st c o) = fst (getToastId st o).
Proof.
  unfold toast_as. rewrite mergeOptions_eq.
  unfold dispatchToast. cbn [fst]. apply get_insert_eq.
Qed.

Lemma substring_length (s : string) : ∀ n m,
  String.length (String.substring n m s) = Nat.min m (String.length s - n).
Proof.
  induction s as [|a s IH]; intros [|n] [|m];
    cbn [String.substring String.length]; rewrite ?IH; lia.
Qed.

(** X8. A generated identifier is a string of at most ten characters,
    and of exactly ten when the random part and the clock part put
    together have at least twelve; generating it advances the entropy
    source by one draw and changes nothing else. *)
Theorem generated_id_is_short_string (st : state) :
  ∃ s,
    fst (generateToastId st) = JStr s ∧
    (String.length s ≤ 10)%nat ∧
    ((12 ≤ String.length (String.append (fst (entropy st (draws st)))
                                        (snd (entropy st (draws st)))))%nat →
     String.length s = 10%nat) ∧
    snd (generateToastId st) = set_draws st (S (draws st)).
Proof.
  unfold generateToastId. destruct (entropy st (draws st)) as [r d]. cbn [fst snd].
  eexists. split; [reflexivity|]. rewrite substring_length. repeat split; lia.
Qed.

(** X9. The identifier a [toast] call returns can be handed back: any
    later call, of any type and in any state, whose options carry it as
    [toastId] returns that same identifier, and draws no new one. *)
Theorem returned_id_addresses_again (U : utils) (ty ty' : jsval) (st st' : state)
    (c c' : jsval) (o : option options) (o' : options) :
  get o' "toastId" = fst (toast_as U ty st c o) →
  fst (toast_as U ty' st' c' (Some o')) = fst (toast_as U ty st c o) ∧
  draws (snd (toast_as U ty' st' c' (Some o'))) = draws st'.
Proof.
  intros Hid.
  assert (Hacc : accepted_id (fst (toast_as U ty st c o)) = true).
  { rewrite toast_as_fst, getToastId_fst.
    destruct (accepted_id (supplied_id o)) eqn:E; [done|].
    unfold generateToastId. by destruct (entropy st (draws st)). }
  split.
  - rewrite (toast_as_fst U ty' st'), getToastId_fst. cbn [supplied_id].
    by rewrite Hid, Hacc.
  - unfold toast_as. rewrite mergeOptions_eq, getToastId_snd. cbn [supplied_id].
    rewrite Hid, Hacc. unfold dispatchToast, bus_emit, appendChild, createElement.
    destruct (isAnyContainerMounted st'); [done|].
    cbn [lazy set_queue]. by destruct (lazy st' && canUseDom U).
Qed.

(** ** What a show hands on *)

(** X10. The options [toast] or a type shortcut emits or enqueues are
    the caller's, key for key, apart from [type] and [toastId]; [type]
    is the caller's [options.type] when that is truthy and the type of
    the entry point otherwise. *)
Theorem toast_dispatches_caller_options (U : utils) (ty : jsval) (st : state)
    (c : jsval) (o : option options) :
  let r := toast_as U ty st c o in
  let requested := match o with Some o' => get o' "type" | None => JUndefined end in
  ∃ opts,
    (containers st ≠ [] →
       emitted (snd r) =
         emitted st ++ [mkEmission (JStr "show") [AVal c; AOpts opts]
                          (receivers st (JStr "show"))]) ∧
    (containers st = [] → queue (snd r) = queue st ++ [mkItem (JStr "show") c opts]) ∧
    get opts "type" = (if truthy requested then requested else ty) ∧
    (∀ k, k ≠ "type" → k ≠ "toastId" → opts !! k = default ∅ o !! k).
Proof.
  intros r requested. subst r. unfold toast_as. rewrite mergeOptions_eq.
  fold requested.
  set (merged := <["toastId" := _]> _).
  destruct (getToastId_frame st o) as (Hc & Hq & He & Hl & _).
  exists merged. split; [|split; [|split]].
  - intros Hne. rewrite dispatchToast_mounted by congruence. cbn [snd emitted set_emitted].
    by rewrite He, (receivers_same st _ _ Hl).
  - intros Hnil.
    destruct (dispatchToast_unmounted U (snd (getToastId st o)) c merged)
      as (_ & Hq' & _); [congruence|].
    by rewrite Hq', Hq.
  - unfold merged. rewrite get_insert_ne, get_insert_eq by done. reflexivity.
  - intros k H1 H2. unfold merged. by rewrite !lookup_insert_ne.
Qed.

(** ** Lazy mounting *)

Lemma toast_as_unmounted_dom U ty st c o :
  containers st = [] →
  let st1 := snd (toast_as U ty st c o) in
  if lazy st && canUseDom U
  then lazy st1 = false ∧ containerDomNode st1 = Some (next_node st) ∧
       body st1 =
         List.filter (fun m => negb (Nat.eqb m (next_node st))) (body st) ++ [next_node st] ∧
       next_node st1 = S (next_node st)
  else lazy st1 = lazy st ∧ containerDomNode st1 = containerDomNode st ∧
       body st1 = body st ∧ next_node st1 = next_node st.
Proof.
  intros H. unfold toast_as. rewrite mergeOptions_eq, getToastId_snd.
  unfold dispatchToast, isAnyContainerMounted, JsMap.size.
  destruct (accepted_id (supplied_id o)); cbn [containers set_draws]; rewrite H;
    cbn [length Nat.ltb Nat.leb snd lazy set_queue set_draws];
    destruct (lazy st && canUseDom U); cbn; tauto.
Qed.

Lemma show_all_idle U calls : ∀ st,
  containers st = [] → lazy st && canUseDom U = false →
  let st' := snd (show_all U st calls) in
  lazy st' = lazy st ∧ containerDomNode st' = containerDomNode st ∧
  body st' = body st ∧ next_node st' = next_node st.
Proof.
  induction calls as [|[ty c o] calls IH]; intros st H Hl; cbv zeta; [done|].
  cbn [show_all sc_type sc_content sc_options].
  pose proof (toast_as_unmounted_dom U ty st c o H) as Hd. cbv zeta in Hd.
  rewrite Hl in Hd.
  destruct (toast_as_unmounted U ty st c o H) as (_ & Hc & _). cbv zeta in Hc.
  destruct (toast_as U ty st c o) as [id st1]. cbn [snd] in Hd, Hc.
  destruct Hd as (H1 & H2 & H3 & H4).
  specialize (IH st1 Hc). rewrite H1 in IH. specialize (IH Hl). cbv zeta in IH.
  destruct (show_all U st1 calls) as [ids st2]. cbn [snd] in IH |- *.
  destruct IH as (-> & -> & -> & ->). done.
Qed.

(** X11. Lazy mounting fires once. With no container registered, the
    flag armed by [configure] and the DOM available, a run of one or
    more shows creates exactly one node, appends it to the document body,
    records it and disarms the flag. With the flag down or no DOM, no
    show touches the flag, the recorded node or the document. *)
Theorem lazy_mount_is_one_shot (U : utils) (st : state) (calls : list show_call) :
  containers st = [] →
  let st' := snd (show_all U st calls) in
  (lazy st && canUseDom U = true → calls ≠ [] →
     lazy st' = false ∧ containerDomNode st' = Some (next_node st) ∧
     body st' =
       List.filter (fun m => negb (Nat.eqb m (next_node st))) (body st) ++ [next_node st] ∧
     next_node st' = S (next_node st)) ∧
  (lazy st && canUseDom U = false →
     lazy st' = lazy st ∧ containerDomNode st' = containerDomNode st ∧
     body st' = body st ∧ next_node st' = next_node st).
Proof.
  intros H st'. split; [|by apply show_all_idle].
  intros Hl Hne. subst st'. destruct calls as [|[ty c o] calls]; [done|].
  cbn [show_all sc_type sc_content sc_options].
  pose proof (toast_as_unmounted_dom U ty st c o H) as Hd. cbv zeta in Hd.
  rewrite Hl in Hd.
  destruct (toast_as_unmounted U ty st c o H) as (_ & Hc & _). cbv zeta in Hc.
  destruct (toast_as U ty st c o) as [id st1]. cbn [snd] in Hd, Hc.
  destruct Hd as (H1 & H2 & H3 & H4).
  assert (Hidle : lazy st1 && canUseDom U = false) by (by rewrite H1).
  pose proof (show_all_idle U calls st1 Hc Hidle) as IH. cbv zeta in IH.
  destruct (show_all U st1 calls) as [ids st2]. cbn [snd] in IH |- *.
  destruct IH as (-> & -> & -> & ->). done.
Qed.

(** X12. Once every container has unmounted, shows are queued again:
    the next [toast] appends its entry to the queue and emits nothing. *)
Theorem shows_queue_again_after_last_unmount (U : utils) (ty : jsval) (st : state)
    (inst : option container) (c : jsval) (o : option options) :
  containers (fst (will_unmount U st inst)) = [] →
  let r := toast_as U ty (fst (will_unmount U st inst)) c o in
  ∃ opts,
    queue (snd r) = queue st ++ [mkItem (JStr "show") c opts] ∧
    get opts "toastId" = fst r ∧
    emitted (snd r) = emitted st.
Proof.
  intros Hnil r.
  destruct (toast_as_unmounted U ty _ c o Hnil) as (Hq & _ & He & _).
  cbv zeta in Hq, He. fold r in Hq, He.
  destruct (will_unmount_frame U st inst) as (_ & _ & Hq0).
  destruct (will_unmount_fields U st inst) as (_ & He0 & _).
  cbv zeta in Hq0, He0.
  eexists. split; [by rewrite Hq, Hq0|]. split; [apply get_insert_eq|].
  by rewrite He, He0.
Qed.

(** X13. Only a mount that finds entries waiting emits anything: a
    container that mounts while the queue is empty -- in particular any
    container mounting after another one, or while one is registered in
    a state that keeps the queue invariant -- adds nothing to the log. *)
Theorem later_mounts_replay_nothing (st : state) (a b : container) :
  emitted (did_mount (did_mount st a) b) = emitted (did_mount st a) ∧
  (queue st = [] → emitted (did_mount st a) = emitted st) ∧
  (queue_inv st → containers st ≠ [] → emitted (did_mount st a) = emitted st).
Proof.
  assert (Hempty : ∀ s x, queue s = [] → emitted (did_mount s x) = emitted s).
  { intros s x Hq. rewrite did_mount_eq. cbn [emitted set_queue set_emitted].
    rewrite Hq. cbn [map]. apply app_nil_r. }
  split; [|split].
  - by apply Hempty.
  - apply Hempty.
  - intros Inv Hne. apply Hempty. by apply Inv.
Qed.

(** ** What an update hands on *)

Lemma typeof_undefined (v : jsval) :
  bool_decide (typeof v = TUndefined) = bool_decide (v = JUndefined).
Proof. by destruct v. Qed.

Lemma update_request_shape st id o t :
  getToast st id o = Some t →
  let merged := spread (t_options t) o in
  let in_place := negb (truthy (get o "toastId")) || strict_eq (get o "toastId") id in
  update_request st id o =
    Some (if bool_decide (get merged "render" = JUndefined)
          then t_content t else get merged "render",
          delete "render"
            (<[(if in_place then "updateId" else "staleToastId") :=
                 (if in_place then fst (generateToastId st) else id)]>
               (<["toastId" := js_or (get o "toastId") id]> merged)),
          if in_place then snd (generateToastId st) else st).
Proof.
  intros Ht merged in_place. unfold update_request. rewrite Ht.
  rewrite !spread_empty_l. fold merged in_place.
  destruct in_place.
  - destruct (generateToastId st) as [uid st1]. cbn [fst snd].
    rewrite typeof_undefined, !get_insert_ne by done.
    by destruct (bool_decide (get merged "render" = JUndefined)).
  - rewrite typeof_undefined, !get_insert_ne by done.
    by destruct (bool_decide (get merged "render" = JUndefined)).
Qed.

(** X14. The content an update dispatches is the [render] property of
    the old options overlaid with the new ones, unless that is
    undefined -- missing, or set to undefined by the caller -- in which
    case the content of the displayed toast is kept. The dispatched
    options never carry [render]. *)
Theorem update_content_from_render (st : state) (id : jsval) (o : options)
    (t : toast_record) :
  getToast st id o = Some t →
  ∃ c o' st1,
    update_request st id o = Some (c, o', st1) ∧
    o' !! "render" = None ∧
    c = (match o !! "render" with
         | Some JUndefined => t_content t
         | Some v => v
         | None =>
             match t_options t !! "render" with
             | Some JUndefined | None => t_content t
             | Some v => v
             end
         end).
Proof.
  intros Ht. rewrite (update_request_shape st id o t Ht).
  eexists _, _, _. split; [reflexivity|]. split; [apply lookup_delete_eq|].
  unfold get, spread. rewrite lookup_union.
  destruct (o !! "render") as [[]|], (t_options t !! "render") as [[]|];
    reflexivity.
Qed.

(** X15. In the options an update dispatches, every property other
    than [toastId], [updateId], [staleToastId] and [render] is the one
    the call supplied when it supplied one, and the one of the displayed
    toast otherwise. *)
Theorem update_merges_new_over_old (st : state) (id : jsval) (o : options)
    (t : toast_record) :
  getToast st id o = Some t →
  ∃ c o' st1,
    update_request st id o = Some (c, o', st1) ∧
    ∀ k, k ≠ "toastId" → k ≠ "updateId" → k ≠ "staleToastId" → k ≠ "render" →
         o' !! k = match o !! k with
                   | Some v => Some v
                   | None => t_options t !! k
                   end.
Proof.
  intros Ht. rewrite (update_request_shape st id o t Ht).
  eexists _, _, _. split; [reflexivity|].
  intros k H1 H2 H3 H4.
  rewrite lookup_delete_ne by done.
  rewrite lookup_insert_ne by (by destruct (_ || _)).
  rewrite lookup_insert_ne by done.
  unfold spread. rewrite lookup_union.
  by destruct (o !! k), (t_options t !! k).
Qed.

(** X16. A deferred update only ever emits: whether or not it finds
    the toast, it leaves the queue, the lazy-mount flag, the document,
    the registry, the latest container, the listeners and the pending
    timers as they were; and it emits at most one event. *)
Theorem update_only_emits (U : utils) (st : state) (id : jsval) (o : options) :
  let st' := update_callback U st id o in
  queue st' = queue st ∧ lazy st' = lazy st ∧ body st' = body st ∧
  containerDomNode st' = containerDomNode st ∧ containers st' = containers st ∧
  latestInstance st' = latestInstance st ∧ listeners st' = listeners st ∧
  timers st' = timers st ∧
  (length (emitted st') ≤ S (length (emitted st)))%nat.
Proof.
  intros st'. subst st'. unfold update_callback.
  destruct (getToast st id o) as [t|] eqn:Ht.
  - rewrite (update_request_shape st id o t Ht).
    pose proof (getToast_mounted _ _ _ _ Ht) as Hm.
    destruct (_ || _).
    + rewrite generateToastId_snd, dispatchToast_mounted by done.
      cbn. rewrite length_app. cbn. repeat split; lia.
    + rewrite dispatchToast_mounted by done.
      cbn. rewrite length_app. cbn. repeat split; lia.
  - unfold update_request. rewrite Ht. repeat split; lia.
Qed.

(** X17. A container id that is truthy but not in the registry selects
    no container -- there is no falling back to the latest one -- so an
    update naming it does nothing, whichever toasts the registered
    containers display. *)
Theorem update_unknown_container_is_noop (U : utils) (st : state) (id : jsval)
    (o : options) :
  truthy (get o "containerId") = true →
  JsMap.get (containers st) (get o "containerId") = None →
  getContainer st (get o "containerId") = None ∧
  update_callback U st id o = st.
Proof.
  intros Htr Hget.
  assert (Hg : getContainer st (get o "containerId") = None).
  { unfold getContainer. destruct (isAnyContainerMounted st); [|done].
    by rewrite Htr. }
  split; [exact Hg|].
  unfold update_callback, update_request, getToast. by rewrite Hg.
Qed.

(** ** isActive *)

Lemma isActive_fold_state id (snap : list jsval) (l : list (jsval * container)) :
  ∀ (b : bool) (st : state),
  snd (fold_left
         (fun acc e =>
            let st1 := set_console (snd acc) (console (snd acc) ++ [snap]) in
            (if isToastActive (snd e) id then true else fst acc, st1))
         l (b, st))
  = set_console st (console st ++ replicate (length l) snap).
Proof.
  induction l as [|e l IH]; intros b st; cbn [fold_left length replicate].
  - rewrite app_nil_r. by destruct st.
  - rewrite IH. cbn [snd console set_console].
    unfold set_console. cbn. by rewrite <- app_assoc.
Qed.

(** X18. [isActive] changes nothing the module works with: the state
    it leaves differs from the one it found only by the console, which
    has received one line per registered container. *)
Theorem isActive_only_logs (st : state) (id : jsval) :
  snd (isActive st id) =
    set_console st
      (console st ++ replicate (length (containers st)) (fst <$> containers st)).
Proof.
  unfold isActive, JsMap.size.
  destruct (containers st) as [|e l] eqn:E.
  - cbn. rewrite app_nil_r. by destruct st.
  - assert ((0 <? length (e :: l))%nat = true) as -> by reflexivity.
    apply isActive_fold_state.
Qed.

(** ** The timer queue *)

Lemma update_callback_set_timers U st x id o :
  update_callback U (set_timers st x) id o = set_timers (update_callback U st id o) x.
Proof.
  unfold update_callback.
  destruct (getToast st id o) as [t|] eqn:Ht.
  - assert (Ht' : getToast (set_timers st x) id o = Some t) by exact Ht.
    rewrite (update_request_shape st id o t Ht),
            (update_request_shape (set_timers st x) id o t Ht').
    pose proof (getToast_mounted _ _ _ _ Ht) as Hm.
    destruct (_ || _).
    + rewrite !generateToastId_snd, !dispatchToast_mounted by done.
      unfold generateToastId. cbn [entropy draws set_timers].
      by destruct (entropy st (draws st)).
    + by rewrite !dispatchToast_mounted.
  - assert (Ht' : getToast (set_timers st x) id o = None) by exact Ht.
    unfold update_request. by rewrite Ht, Ht'.
Qed.

Lemma update_callback_timers U st id o :
  timers (update_callback U st id o) = timers st.
Proof.
  unfold update_callback.
  destruct (getToast st id o) as [t|] eqn:Ht.
  - rewrite (update_request_shape st id o t Ht).
    pose proof (getToast_mounted _ _ _ _ Ht) as Hm.
    destruct (_ || _).
    + by rewrite generateToastId_snd, dispatchToast_mounted.
    + by rewrite dispatchToast_mounted.
  - unfold update_request. by rewrite Ht.
Qed.

(** X19. Letting the timers fire as many times as updates are pending
    runs the deferred function of each update once, in the order the
    updates were requested, each on the state the previous one left, and
    leaves no timer pending. *)
Theorem pending_updates_run_in_order (U : utils) (st : state) :
  Nat.iter (length (timers st)) (tick U) st =
    fold_left (fun s e => update_callback U s (fst e) (snd e)) (timers st)
      (set_timers st []) ∧
  timers (Nat.iter (length (timers st)) (tick U) st) = [].
Proof.
  assert (Hrun : ∀ l s, timers s = l →
            Nat.iter (length l) (tick U) s =
              fold_left (fun s e => update_callback U s (fst e) (snd e)) l
                (set_timers s [])).
  { induction l as [|[id o] rest IH]; intros s Hs.
    - cbn. rewrite <- Hs. by destruct s.
    - cbn [length]. rewrite Nat.iter_succ_r.
      assert (Htick : tick U s = update_callback U (set_timers s rest) id o)
        by (unfold tick; by rewrite Hs).
      rewrite Htick, IH by (by rewrite update_callback_timers).
      cbn [fold_left fst snd]. f_equal.
      by rewrite !update_callback_set_timers. }
  assert (Hnone : ∀ l s, timers s = [] →
            timers (fold_left (fun s e => update_callback U s (fst e) (snd e)) l s) = []).
  { induction l as [|[id o] rest IH]; intros s Hs; [done|].
    cbn [fold_left]. apply IH. by rewrite update_callback_timers. }
  split; [by apply Hrun|].
  rewrite (Hrun _ st eq_refl). by apply Hnone.
Qed.

(** * The further properties at concrete inputs *)

Lemma mounted_container_is_found_witness :
  getContainer (did_mount Sample.st0 Sample.box) JUndefined = Some Sample.box ∧
  getContainer (did_mount Sample.st_box Sample.side) (JStr "side") = Some Sample.side.
Proof.
  split.
  - apply (mounted_container_is_found Sample.st0 Sample.box JUndefined).
    left. reflexivity.
  - apply (mounted_container_is_found Sample.st_box Sample.side (JStr "side")).
    right. reflexivity.
Defined.

Lemma did_mount_overwrites_same_key_witness :
  JsMap.size (containers (did_mount Sample.st_both Sample.side2)) = 2 ∧
  JsMap.get (containers (did_mount Sample.st_both Sample.side2)) (JStr "side")
    = Some Sample.side2 ∧
  JsMap.get (containers (did_mount Sample.st_both Sample.side2)) (JRef 7)
    = JsMap.get (containers Sample.st_both) (JRef 7).
Proof.
  destruct (did_mount_overwrites_same_key Sample.st_both Sample.side2) as (H1 & H2 & H3).
  split; [|split].
  - rewrite H3. vm_compute. reflexivity.
  - exact H2.
  - apply H1. intros H. vm_compute in H. discriminate H.
Defined.

Lemma mount_then_unmount_restores_registry_witness :
  containers (fst (will_unmount Sample.U (did_mount Sample.st_box Sample.side)
                     (Some Sample.side)))
    = containers Sample.st_box.
Proof.
  assert (H : JsMap.get (containers Sample.st_box) (container_key Sample.side) = None)
    by (vm_compute; reflexivity).
  exact (proj1 (mount_then_unmount_restores_registry Sample.U Sample.st_box Sample.side H)).
Defined.

Lemma registry_keys_distinct_witness :
  registry_wf Sample.st0 ∧
  registry_wf (run_ops Sample.U Sample.st0
                 [OpDidMount Sample.box; OpDidMount Sample.side;
                  OpDidMount Sample.side2; OpWillUnmount (Some Sample.box)]).
Proof.
  assert (H : registry_wf Sample.st0) by (vm_compute; constructor).
  split; [exact H|].
  exact (proj1 (registry_keys_distinct Sample.U Sample.st0 _ H)).
Defined.

Lemma default_lookup_fails_after_latest_unmounts_witness :
  containers (fst (will_unmount Sample.U Sample.st_both (Some Sample.side))) ≠ [] ∧
  getContainer (fst (will_unmount Sample.U Sample.st_both (Some Sample.side))) JUndefined
    = None ∧
  update_callback Sample.U
    (fst (will_unmount Sample.U Sample.st_both (Some Sample.side))) (JStr "a") ∅
    = fst (will_unmount Sample.U Sample.st_both (Some Sample.side)).
Proof.
  assert (Hl : latestInstance Sample.st_both = container_key Sample.side)
    by (vm_compute; reflexivity).
  destruct (default_lookup_fails_after_latest_unmounts Sample.U Sample.st_both
              Sample.side JUndefined Hl eq_refl) as (Hg & Hu).
  split; [|split].
  - vm_compute. discriminate.
  - exact Hg.
  - apply Hu. vm_compute. reflexivity.
Defined.

Lemma lazy_node_removed_only_once_witness :
  containerDomNode Sample.st_lazy = Some 0 ∧
  snd (will_unmount Sample.U Sample.st_lazy None) = Returned ∧
  snd (will_unmount Sample.U (fst (will_unmount Sample.U Sample.st_lazy None)) None)
    = Threw "NotFoundError".
Proof.
  assert (Hn : containerDomNode Sample.st_lazy = Some 0) by (vm_compute; reflexivity).
  destruct (lazy_node_removed_only_once Sample.U Sample.st_lazy None None 0 eq_refl Hn)
    as (H1 & _ & _ & H2).
  split; [exact Hn|]. split; [|exact H2].
  rewrite H1. vm_compute. reflexivity.
Defined.

Lemma will_unmount_keeps_other_listeners_witness :
  receivers (fst (will_unmount Sample.U (onChange Sample.st_both (JFun 5)) None))
    (JStr "change") = [Callback 5].
Proof.
  rewrite (will_unmount_keeps_other_listeners Sample.U (onChange Sample.st_both (JFun 5))
             None (JStr "change")).
  - vm_compute. reflexivity.
  - vm_compute. discriminate.
  - vm_compute. discriminate.
Defined.

Lemma generated_id_is_short_string_witness :
  ∃ s, fst (generateToastId Sample.st0) = JStr s ∧ String.length s = 10%nat.
Proof.
  destruct (generated_id_is_short_string Sample.st0) as (s & Hs & _ & Hlen & _).
  exists s. split; [exact Hs|]. apply Hlen. vm_compute. lia.
Defined.

Lemma returned_id_addresses_again_witness :
  fst (toast_as Sample.U (JStr "info") Sample.st_box (JStr "again")
         (Some {["toastId" := JStr "k0x7qkf12o"]}))
    = fst (toast Sample.U Sample.st0 (JStr "hi") None).
Proof.
  assert (H : get ({["toastId" := JStr "k0x7qkf12o"]} : options) "toastId" =
              fst (toast_as Sample.U (JStr "default") Sample.st0 (JStr "hi") None))
    by (vm_compute; reflexivity).
  exact (proj1 (returned_id_addresses_again Sample.U (JStr "default") (JStr "info")
                  Sample.st0 Sample.st_box (JStr "hi") (JStr "again") None _ H)).
Defined.

Lemma toast_dispatches_caller_options_witness :
  ∃ opts,
    emitted (snd (toast_as Sample.U (JStr "info") Sample.st_box (JStr "hi")
                    (Some {["autoClose" := JNum (Int 3000); "type" := JStr "error"]})))
      = emitted Sample.st_box ++
          [mkEmission (JStr "show") [AVal (JStr "hi"); AOpts opts]
             (receivers Sample.st_box (JStr "show"))] ∧
    get opts "type" = JStr "error" ∧
    opts !! "autoClose" = Some (JNum (Int 3000)).
Proof.
  destruct (toast_dispatches_caller_options Sample.U (JStr "info") Sample.st_box (JStr "hi")
              (Some {["autoClose" := JNum (Int 3000); "type" := JStr "error"]}))
    as (opts & He & _ & Hty & Hk).
  exists opts. split; [|split].
  - apply He. vm_compute. discriminate.
  - rewrite Hty. vm_compute. reflexivity.
  - rewrite Hk by done. vm_compute. reflexivity.
Defined.

Lemma lazy_mount_is_one_shot_witness :
  lazy (snd (show_all Sample.U (configure Sample.st0 (JRef 1)) Sample.calls)) = false ∧
  body (snd (show_all Sample.U (configure Sample.st0 (JRef 1)) Sample.calls)) = [0].
Proof.
  destruct (lazy_mount_is_one_shot Sample.U (configure Sample.st0 (JRef 1)) Sample.calls
              eq_refl) as (H & _).
  destruct H as (H1 & _ & H3 & _); [reflexivity | discriminate |].
  split; [exact H1|]. rewrite H3. reflexivity.
Defined.

Lemma shows_queue_again_after_last_unmount_witness :
  ∃ opts,
    queue (snd (toast_as Sample.U (JStr "info")
                  (fst (will_unmount Sample.U Sample.st_box (Some Sample.box)))
                  (JStr "late") None))
      = [mkItem (JStr "show") (JStr "late") opts].
Proof.
  assert (H : containers (fst (will_unmount Sample.U Sample.st_box (Some Sample.box))) = [])
    by (vm_compute; reflexivity).
  destruct (shows_queue_again_after_last_unmount Sample.U (JStr "info") Sample.st_box
              (Some Sample.box) (JStr "late") None H) as (opts & Hq & _).
  exists opts. exact Hq.
Defined.

Lemma later_mounts_replay_nothing_witness :
  emitted (did_mount Sample.st0 Sample.box) = [] ∧
  emitted (did_mount Sample.st_box Sample.side) = emitted Sample.st_box.
Proof.
  split.
  - apply (proj1 (proj2 (later_mounts_replay_nothing Sample.st0 Sample.box Sample.side))).
    reflexivity.
  - apply (proj2 (proj2 (later_mounts_replay_nothing Sample.st_box Sample.side Sample.box))).
    + intros _. reflexivity.
    + vm_compute. discriminate.
Defined.

Lemma update_content_from_render_witness :
  ∃ o' st1,
    update_request Sample.st_box (JStr "a") {["render" := JStr "new"]}
      = Some (JStr "new", o', st1) ∧
    o' !! "render" = None.
Proof.
  assert (Hg : getToast Sample.st_box (JStr "a") {["render" := JStr "new"]} =
               Some (mkToast (JStr "hello") {["autoClose" := JNum (Int 5000)]}))
    by (vm_compute; reflexivity).
  destruct (update_content_from_render Sample.st_box (JStr "a") _ _ Hg)
    as (c & o' & st1 & Hr & Hn & Hc).
  exists o', st1. split; [|exact Hn].
  rewrite Hr, Hc. vm_compute. reflexivity.
Defined.

Lemma update_merges_new_over_old_witness :
  ∃ c o' st1,
    update_request Sample.st_box (JStr "a") {["pauseOnHover" := JBool false]}
      = Some (c, o', st1) ∧
    o' !! "pauseOnHover" = Some (JBool false) ∧
    o' !! "autoClose" = Some (JNum (Int 5000)).
Proof.
  assert (Hg : getToast Sample.st_box (JStr "a") {["pauseOnHover" := JBool false]} =
               Some (mkToast (JStr "hello") {["autoClose" := JNum (Int 5000)]}))
    by (vm_compute; reflexivity).
  destruct (update_merges_new_over_old Sample.st_box (JStr "a") _ _ Hg)
    as (c & o' & st1 & Hr & Hk).
  exists c, o', st1. split; [exact Hr|]. split.
  - rewrite Hk by done. vm_compute. reflexivity.
  - rewrite Hk by done. vm_compute. reflexivity.
Defined.

Lemma update_unknown_container_is_noop_witness :
  update_callback Sample.U Sample.st_box (JStr "a") {["containerId" := JStr "nowhere"]}
    = Sample.st_box.
Proof.
  apply (update_unknown_container_is_noop Sample.U Sample.st_box (JStr "a")
           {["containerId" := JStr "nowhere"]}).
  - vm_compute. reflexivity.
  - vm_compute. reflexivity.
Defined.
